(** * DecodeDetections: a shallow embedding of the SSD decoding layer

    The layer of [keras_layers/keras_layer_DecodeDetections.py] turns the raw
    output of an SSD network into a fixed number of boxes per image:
    decode the anchor offsets, threshold per class, suppress non-maxima per
    class, keep the [top_k] best rows.

    Tensor entries are 32-bit floats in the source.  They are embedded as the
    real numbers of the Standard Library: rounding, infinities and NaN are not
    modelled, and no property below is about them.  Python integers are [Z],
    tensor dimensions and indices [nat], Python exceptions a result type.
    The keyword arguments the constructor hands to its base class are not
    modelled. *)

From Stdlib Require Import String.
From Stdlib Require Import Reals Lra List ZArith Lia Bool Arith.
From Stdlib Require Import Permutation Sorted.
Import ListNotations.

Open Scope R_scope.

(** ** Exceptions *)

Inductive exn : Type :=
| TypeError
| ValueError
| InvalidArgumentError.

Inductive result (A : Type) : Type :=
| Ok (a : A)
| Raise (e : exn).

Arguments Ok {A} a.
Arguments Raise {A} e.

Definition bind {A B : Type} (m : result A) (k : A -> result B) : result B :=
  match m with
  | Ok a => k a
  | Raise e => Raise e
  end.

Notation "x <- m ;; k" := (bind m (fun x => k))
  (at level 61, m at next level, right associativity).

(** The loop of [map_fn]: the first exception wins. *)
Fixpoint map_fn_loop {A B : Type} (fn : A -> result B) (elems : list A)
  : result (list B) :=
  match elems with
  | [] => Ok []
  | x :: rest =>
      y <- fn x ;;
      ys <- map_fn_loop fn rest ;;
      Ok (y :: ys)
  end.

(** [map_fn] of TensorFlow over a list.  Without elements there is nothing
    to stack: the graph mode this layer is written for refuses it (eager
    execution returns a tensor without inner dimensions instead), so the
    empty case is an error here and no property below relies on it giving a
    result. *)
Definition map_fn {A B : Type} (fn : A -> result B) (elems : list A)
  : result (list B) :=
  match elems with
  | [] => Raise InvalidArgumentError
  | _ :: _ => map_fn_loop fn elems
  end.

(** ** Comparisons of tensor entries *)

Definition Rgtb (x y : R) : bool := if Rgt_dec x y then true else false.
Definition Rleb (x y : R) : bool := if Rle_dec x y then true else false.

(** ** The layer object *)

(** The members [__init__] stores.  [channels_last_img_height] and
    [channels_last_img_width] are the float32 constants of lines 99-100; the
    other constants of lines 95-101 hold the same value as the member they
    are built from and are read through it. *)
Record DecodeDetections : Type := mkLayer {
  confidence_thresh : R;
  iou_threshold : R;
  top_k : Z;
  nms_max_output_size : Z;
  coords : string;
  normalize_coords : bool;
  img_height : option R;
  img_width : option R;
  channels_last_img_height : R;
  channels_last_img_width : R
}.

Definition is_None {A : Type} (o : option A) : bool :=
  match o with None => true | Some _ => false end.

(** [tensorflow.constant(value, dtype=float32)]: a Python number becomes a
    constant, [None] is refused ("None values not supported"). *)
Definition constant_float32 (value : option R) : result R :=
  match value with
  | Some v => Ok v
  | None => Raise ValueError
  end.

(** [tensorflow.constant(value)] on a Python integer: an integer that does
    not fit in 64 bits is refused. *)
Definition fits_int64 (value : Z) : bool :=
  (- 2 ^ 63 <=? value)%Z && (value <? 2 ^ 63)%Z.

Definition constant_int (value : Z) : result Z :=
  if fits_int64 value then Ok value else Raise ValueError.

(** [DecodeDetections.__init__], lines 75-103, called without further
    keyword arguments.  [backend] is what [K.backend()] answers.  The
    constants are built in the order of lines 95-101. *)
Definition init (backend : string)
    (confidence_thresh0 iou_threshold0 : R) (top_k0 nms_max_output_size0 : Z)
    (coords0 : string) (normalize_coords0 : bool)
    (img_height0 img_width0 : option R) : result DecodeDetections :=
  if negb (String.eqb backend "tensorflow") then Raise TypeError
  else if normalize_coords0 && (is_None img_height0 || is_None img_width0)
  then Raise ValueError
  else if negb (String.eqb coords0 "centroids") then Raise ValueError
  else
    _ <- constant_int top_k0 ;;
    h <- constant_float32 img_height0 ;;
    w <- constant_float32 img_width0 ;;
    _ <- constant_int nms_max_output_size0 ;;
    Ok (mkLayer confidence_thresh0 iou_threshold0 top_k0 nms_max_output_size0
          coords0 normalize_coords0 img_height0 img_width0 h w).

(** ** Tensors *)

(** A rank-3 tensor: its static shape and its entries, row-major as nested
    lists.  The rank is part of the type. *)
Record Tensor3 : Type := mkTensor3 {
  shape0 : nat;
  shape1 : nat;
  shape2 : nat;
  entries : list (list (list R))
}.

Definition matrix_shape (rows cols : nat) (m : list (list R)) : Prop :=
  length m = rows /\ Forall (fun r => length r = cols) m.

Definition well_shaped (t : Tensor3) : Prop :=
  length (entries t) = shape0 t /\
  Forall (matrix_shape (shape1 t) (shape2 t)) (entries t).

(** [v[..., -k]] on one vector of the last axis. *)
Definition neg_index (v : list R) (k : nat) : R :=
  nth (length v - k) v 0.

(** [v[..., :-k]] and [v[..., -k:]]. *)
Definition drop_last (k : nat) (v : list R) : list R :=
  firstn (length v - k) v.
Definition take_last (k : nat) (v : list R) : list R :=
  skipn (length v - k) v.

(** ** 1. Box decoding, lines 124-149 *)

Record Corners : Type := mkCorners {
  c_xmin : R;
  c_ymin : R;
  c_xmax : R;
  c_ymax : R
}.

(** Lines 124-133: anchor offsets to centroids, centroids to corners. *)
Definition centroids_to_corners (v : list R) : Corners :=
  let cx := neg_index v 12 * neg_index v 4 * neg_index v 6 + neg_index v 8 in
  let cy := neg_index v 11 * neg_index v 3 * neg_index v 5 + neg_index v 7 in
  let w := exp (neg_index v 10 * neg_index v 2) * neg_index v 6 in
  let h := exp (neg_index v 9 * neg_index v 1) * neg_index v 5 in
  mkCorners (cx - 0.5 * w) (cy - 0.5 * h) (cx + 0.5 * w) (cy + 0.5 * h).

(** Lines 137-142. *)
Definition normalized_coords (self : DecodeDetections) (c : Corners) : Corners :=
  mkCorners (c_xmin c * channels_last_img_width self)
            (c_ymin c * channels_last_img_height self)
            (c_xmax c * channels_last_img_width self)
            (c_ymax c * channels_last_img_height self).

(** Lines 143-144. *)
Definition non_normalized_coords (c : Corners) : Corners := c.

(** Line 146. *)
Definition decode_corners (self : DecodeDetections) (v : list R) : Corners :=
  if normalize_coords self
  then normalized_coords self (centroids_to_corners v)
  else non_normalized_coords (centroids_to_corners v).

(** Line 149: class scores followed by the four corners. *)
Definition decode_box (self : DecodeDetections) (v : list R) : list R :=
  let c := decode_corners self v in
  drop_last 12 v ++ [c_xmin c; c_ymin c; c_xmax c; c_ymax c].

(** ** TensorFlow operations the layer calls *)

(** [gather(params, indices, axis=0)]. *)
Definition gather {A : Type} (d : A) (params : list A) (indices : list nat)
  : list A :=
  map (fun i => nth i params d) indices.

(** [size(tensor)]: the number of entries. *)
Definition tensor_size (m : list (list R)) : nat := length (concat m).

Definition zero_row : list R := repeat 0 6.

(** [pad(tensor, [[0, after], [0, 0]], 'CONSTANT', 0.0)] on a matrix of six
    columns: a negative padding is refused. *)
Definition pad_rows (tensor : list (list R)) (after : Z)
  : result (list (list R)) :=
  if (after <? 0)%Z then Raise InvalidArgumentError
  else Ok (tensor ++ repeat zero_row (Z.to_nat after)).

(** Indices ordered by decreasing value, the lower index first among equal
    values: the order in which [nn.top_k(sorted=True)] and
    [image.non_max_suppression] visit their input. *)
Fixpoint insert_desc (x : nat * R) (l : list (nat * R)) : list (nat * R) :=
  match l with
  | [] => [x]
  | y :: l' => if Rgtb (snd y) (snd x) then y :: insert_desc x l'
               else x :: y :: l'
  end.

Definition sort_desc (l : list (nat * R)) : list (nat * R) :=
  fold_right insert_desc [] l.

Definition argsort_desc (values : list R) : list nat :=
  map fst (sort_desc (combine (seq 0 (length values)) values)).

(** [nn.top_k(values, k, sorted=True).indices]. *)
Definition nn_top_k (values : list R) (k : Z) : result (list nat) :=
  if (k <? 0)%Z then Raise InvalidArgumentError
  else if (Z.of_nat (length values) <? k)%Z then Raise InvalidArgumentError
  else Ok (firstn (Z.to_nat k) (argsort_desc values)).

(** Intersection over union of two boxes [[y1; x1; y2; x2]], as the
    suppression kernel computes it: corners are put in order first, a box
    without area overlaps nothing. *)
Definition box_area (b : list R) : R :=
  (Rmax (nth 0 b 0) (nth 2 b 0) - Rmin (nth 0 b 0) (nth 2 b 0)) *
  (Rmax (nth 1 b 0) (nth 3 b 0) - Rmin (nth 1 b 0) (nth 3 b 0)).

Definition intersection_area (a b : list R) : R :=
  let ymin := Rmax (Rmin (nth 0 a 0) (nth 2 a 0)) (Rmin (nth 0 b 0) (nth 2 b 0)) in
  let xmin := Rmax (Rmin (nth 1 a 0) (nth 3 a 0)) (Rmin (nth 1 b 0) (nth 3 b 0)) in
  let ymax := Rmin (Rmax (nth 0 a 0) (nth 2 a 0)) (Rmax (nth 0 b 0) (nth 2 b 0)) in
  let xmax := Rmin (Rmax (nth 1 a 0) (nth 3 a 0)) (Rmax (nth 1 b 0) (nth 3 b 0)) in
  Rmax (ymax - ymin) 0 * Rmax (xmax - xmin) 0.

Definition IOU (a b : list R) : R :=
  if Rleb (box_area a) 0 || Rleb (box_area b) 0 then 0
  else intersection_area a b /
       (box_area a + box_area b - intersection_area a b).

Section Suppression.

Variable A : Type.
(** [overlaps c s]: candidate [c] is too close to the selected [s]. *)
Variable overlaps : A -> A -> bool.

(** The kernel's loop: candidates are visited in order, one is selected
    when it overlaps no box selected before; the loop ends when
    [output_size] boxes are selected. *)
Fixpoint nms_loop (output_size : nat) (candidates selected : list A)
  : list A :=
  match candidates with
  | [] => selected
  | c :: rest =>
      if length selected <? output_size then
        if existsb (overlaps c) selected
        then nms_loop output_size rest selected
        else nms_loop output_size rest (selected ++ [c])
      else selected
  end.

(** The greedy algorithm in the words of the specification: emit the first
    remaining candidate, discard the remaining ones that overlap it,
    stop after [emissions] boxes. *)
Fixpoint greedy_nms (emissions : nat) (remaining : list A) : list A :=
  match emissions with
  | O => []
  | S n =>
      match remaining with
      | [] => []
      | c :: rest =>
          c :: greedy_nms n (filter (fun x => negb (overlaps x c)) rest)
      end
  end.

End Suppression.

Arguments nms_loop {A} overlaps output_size candidates selected.
Arguments greedy_nms {A} overlaps emissions remaining.

Definition iou_exceeds (boxes : list (list R)) (iou_threshold0 : R)
    (i j : nat) : bool :=
  Rgtb (IOU (nth i boxes []) (nth j boxes [])) iou_threshold0.

(** [image.non_max_suppression(boxes, scores, max_output_size,
    iou_threshold)]: the indices of the selected boxes, best score first. *)
Definition non_max_suppression (boxes : list (list R)) (scores : list R)
    (max_output_size : Z) (iou_threshold0 : R) : result (list nat) :=
  if Rgtb 0 iou_threshold0 || Rgtb iou_threshold0 1
  then Raise InvalidArgumentError
  else if (max_output_size <? 0)%Z then Raise InvalidArgumentError
  else
    Ok (nms_loop (iou_exceeds boxes iou_threshold0)
          (Nat.min (Z.to_nat max_output_size) (length boxes))
          (argsort_desc scores) []).

(** ** 2. Thresholding, suppression and top-k, lines 156-265 *)

(** Columns of a row [[class_id; confidence; xmin; ymin; xmax; ymax]]. *)
Definition class_id (r : list R) : R := nth 0 r 0.
Definition confidence (r : list R) : R := nth 1 r 0.

(** The integers [1 .. n_classes - 1]. *)
Definition class_range (n_classes : nat) : list nat :=
  seq 1 (n_classes - 1).

(** Lines 159 and 220: [tensorflow.range(1, n_classes)], which requires
    [1 <= n_classes]. *)
Definition class_indices (n_classes : nat) : result (list nat) :=
  if n_classes <? 1 then Raise InvalidArgumentError
  else Ok (class_range n_classes).

(** Lines 173-177. *)
Definition single_class_rows (batch_item : list (list R)) (index : nat)
  : list (list R) :=
  map (fun box => [INR index; nth index box 0] ++ take_last 4 box) batch_item.

(** Lines 180-182. *)
Definition threshold_met (self : DecodeDetections) (r : list R) : bool :=
  Rgtb (nth 1 r 0) (confidence_thresh self).

(** The boxes handed to the suppression, line 193: [[ymin; xmin; ymax; xmax]]. *)
Definition nms_box (r : list R) : list R :=
  [neg_index r 3; neg_index r 4; neg_index r 1; neg_index r 2].

(** Lines 185-203. *)
Definition perform_nms (self : DecodeDetections) (single_class : list (list R))
  : result (list (list R)) :=
  let scores := map (fun r => nth 1 r 0) single_class in
  let boxes := map nms_box single_class in
  maxima_indices <-
    non_max_suppression boxes scores (nms_max_output_size self)
      (iou_threshold self) ;;
  Ok (gather [] single_class maxima_indices).

(** Lines 205-206. *)
Definition no_confident_predictions : result (list (list R)) :=
  Ok [zero_row].

(** Lines 168-216. *)
Definition filter_single_class (self : DecodeDetections)
    (batch_item : list (list R)) (index : nat) : result (list (list R)) :=
  let single_class :=
    filter (threshold_met self) (single_class_rows batch_item index) in
  single_class_nms <-
    (if tensor_size single_class =? 0 then no_confident_predictions
     else perform_nms self single_class) ;;
  pad_rows single_class_nms
    (nms_max_output_size self - Z.of_nat (length single_class_nms)).

(** Lines 238-241. *)
Definition top_k_branch (self : DecodeDetections)
    (filtered_predictions : list (list R)) : result (list (list R)) :=
  indices <- nn_top_k (map confidence filtered_predictions) (top_k self) ;;
  Ok (gather [] filtered_predictions indices).

(** Lines 242-249. *)
Definition pad_and_top_k (self : DecodeDetections)
    (filtered_predictions : list (list R)) : result (list (list R)) :=
  padded_predictions <-
    pad_rows filtered_predictions
      (top_k self - Z.of_nat (length filtered_predictions)) ;;
  indices <- nn_top_k (map confidence padded_predictions) (top_k self) ;;
  Ok (gather [] padded_predictions indices).

(** Line 251. *)
Definition top_k_stage (self : DecodeDetections)
    (filtered_predictions : list (list R)) : result (list (list R)) :=
  if (Z.of_nat (length filtered_predictions) >=? top_k self)%Z
  then top_k_branch self filtered_predictions
  else pad_and_top_k self filtered_predictions.

(** Lines 219-229: the blocks of all classes, one after the other. *)
Definition filtered_predictions_of (self : DecodeDetections) (n_classes : nat)
    (batch_item : list (list R)) : result (list (list R)) :=
  elems <- class_indices n_classes ;;
  filtered_single_classes <-
    map_fn (filter_single_class self batch_item) elems ;;
  Ok (concat filtered_single_classes).

(** Lines 165-253. *)
Definition filter_predictions (self : DecodeDetections) (n_classes : nat)
    (batch_item : list (list R)) : result (list (list R)) :=
  filtered_predictions <- filtered_predictions_of self n_classes batch_item ;;
  top_k_stage self filtered_predictions.

(** [DecodeDetections.call], lines 109-265.  The slices [y_pred[..., -12]]
    are refused when the last axis is shorter than twelve; line 159 builds
    the class range before the batch is visited. *)
Definition call (self : DecodeDetections) (y_pred : Tensor3)
  : result (list (list (list R))) :=
  if shape2 y_pred <? 12 then Raise ValueError
  else
    let decoded := map (map (decode_box self)) (entries y_pred) in
    let n_classes := (shape2 y_pred - 12 + 4 - 4)%nat in
    _ <- class_indices n_classes ;;
    map_fn (filter_predictions self n_classes) decoded.

(** The output shape, as [compute_output_shape] announces it. *)
Definition has_shape3 (d0 d1 d2 : nat) (t : list (list (list R))) : Prop :=
  length t = d0 /\ Forall (matrix_shape d1 d2) t.

(** ** Valid configurations and inputs *)

(** The documented domains of the options. *)
Definition valid_config (self : DecodeDetections) : Prop :=
  0 <= confidence_thresh self < 1 /\
  0 <= iou_threshold self <= 1 /\
  (0 < top_k self)%Z /\
  (0 < nms_max_output_size self)%Z.

(** A tensor of shape [(batch_size, n_boxes, n_classes + 12)]. *)
Definition valid_input (n_classes : nat) (y_pred : Tensor3) : Prop :=
  well_shaped y_pred /\ shape2 y_pred = (n_classes + 12)%nat.

(** ** The hooks of the framework, lines 267-283 *)


(** The Python values a configuration holds. *)
Inductive pyvalue : Type :=
| PyNone
| PyBool (b : bool)
| PyInt (z : Z)
| PyFloat (x : R)
| PyStr (s : string).

(** A Python dict with string keys: its items in insertion order, every key
    once. *)
Definition pydict : Type := list (string * pyvalue).

Fixpoint dict_get (d : pydict) (key : string) : option pyvalue :=
  match d with
  | [] => None
  | (k, v) :: rest => if String.eqb k key then Some v else dict_get rest key
  end.

(** [d[key] = v]: a key already there keeps its place. *)
Fixpoint dict_set (d : pydict) (key : string) (v : pyvalue) : pydict :=
  match d with
  | [] => [(key, v)]
  | (k, w) :: rest =>
      if String.eqb k key then (k, v) :: rest
      else (k, w) :: dict_set rest key v
  end.

(** [dict(items)] on a list of pairs: a later pair overrides an earlier one
    with the same key. *)
Definition dict_of_items (items : list (string * pyvalue)) : pydict :=
  fold_left (fun d kv => dict_set d (fst kv) (snd kv)) items [].

Definition py_optional (o : option R) : pyvalue :=
  match o with
  | Some x => PyFloat x
  | None => PyNone
  end.

(** [get_config], lines 271-283.  [base_config] is what the [get_config] of
    the base class returns. *)
Definition get_config (self : DecodeDetections) (base_config : pydict)
  : pydict :=
  let config :=
    dict_of_items
      [("confidence_thresh"%string, PyFloat (confidence_thresh self));
       ("iou_threshold"%string, PyFloat (iou_threshold self));
       ("top_k"%string, PyInt (top_k self));
       ("nms_max_output_size"%string, PyInt (nms_max_output_size self));
       ("coords"%string, PyStr (coords self));
       ("normalize_coords"%string, PyBool (normalize_coords self));
       ("img_height"%string, py_optional (img_height self));
       ("img_width"%string, py_optional (img_width self))] in
  dict_of_items (base_config ++ config).

(** The keys [get_config] writes. *)
Definition config_keys : list string :=
  ["confidence_thresh"; "iou_threshold"; "top_k"; "nms_max_output_size";
   "coords"; "normalize_coords"; "img_height"; "img_width"]%string.

(** The last value a list of pairs gives a key. *)
Fixpoint assoc_last (key : string) (items : list (string * pyvalue))
  : option pyvalue :=
  match items with
  | [] => None
  | (k, v) :: rest =>
      match assoc_last key rest with
      | Some w => Some w
      | None => if String.eqb k key then Some v else None
      end
  end.

(** A base configuration as Keras returns it. *)
Definition base_config0 : pydict :=
  [("name"%string, PyStr "decoded_predictions");
   ("trainable"%string, PyBool true)].

(** A row has a positive confidence. *)
Definition positive_confidence (r : list R) : bool := Rgtb (confidence r) 0.

(** A row carries the class [index]. *)
Definition of_class (index : nat) (r : list R) : bool :=
  if Req_dec_T (class_id r) (INR index) then true else false.

(** * What the stages compute *)

(** The definitions below name the intermediate results of [call]; the
    lemmas of the second part prove that the code computes them. *)

(** ** Orders *)

(** Scores do not increase from [a] to [b]. *)
Definition desc (a b : nat * R) : Prop := snd b <= snd a.

(** Confidences do not increase along the gathered rows. *)
Definition conf_desc (a b : list R) : Prop := confidence b <= confidence a.

(** ** The stages of one image *)

(** The candidates of class [index] that pass the threshold. *)
Definition confident_rows (self : DecodeDetections)
    (batch_item : list (list R)) (index : nat) : list (list R) :=
  filter (threshold_met self) (single_class_rows batch_item index).

(** The detections of class [index]: the greedy selection among the
    confident candidates visited by decreasing confidence. *)
Definition class_detections (self : DecodeDetections)
    (batch_item : list (list R)) (index : nat) : list (list R) :=
  let single_class := confident_rows self batch_item index in
  gather [] single_class
    (greedy_nms
       (iou_exceeds (map nms_box single_class) (iou_threshold self))
       (Z.to_nat (nms_max_output_size self))
       (argsort_desc (map confidence single_class))).

(** The block a class contributes: its detections, then zero rows up to
    [nms_max_output_size]. *)
Definition class_block (self : DecodeDetections) (batch_item : list (list R))
    (index : nat) : list (list R) :=
  class_detections self batch_item index ++
  repeat zero_row
    (Z.to_nat (nms_max_output_size self) -
     length (class_detections self batch_item index)).

(** The blocks of the classes [1 .. n_classes - 1], one after the other. *)
Definition all_blocks (self : DecodeDetections) (n_classes : nat)
    (batch_item : list (list R)) : list (list R) :=
  concat (map (class_block self batch_item) (class_range n_classes)).

(** The rows the top-k stage ranks: the blocks, padded to [top_k] rows. *)
Definition padded_predictions (self : DecodeDetections)
    (filtered_predictions : list (list R)) : list (list R) :=
  filtered_predictions ++
  repeat zero_row
    (Z.to_nat (top_k self - Z.of_nat (length filtered_predictions))).

(** These rows by decreasing confidence. *)
Definition ranked (self : DecodeDetections)
    (filtered_predictions : list (list R)) : list (list R) :=
  let padded := padded_predictions self filtered_predictions in
  gather [] padded (argsort_desc (map confidence padded)).

(** The frame of an image: the first [top_k] ranked rows. *)
Definition frame_result (self : DecodeDetections) (n_classes : nat)
    (batch_item : list (list R)) : list (list R) :=
  firstn (Z.to_nat (top_k self))
    (ranked self (all_blocks self n_classes batch_item)).

(** ** Rows of the output *)

(** A row of the output other than the zero row: a class, the score of a box
    of the image for that class, and the decoded corners of that box. *)
Definition detection_of (self : DecodeDetections) (n_classes : nat)
    (image : list (list R)) (r : list R) : Prop :=
  exists index v,
    (1 <= index < n_classes)%nat /\ In v image /\
    confidence r > confidence_thresh self /\
    r = [INR index; nth index v 0;
         c_xmin (decode_corners self v); c_ymin (decode_corners self v);
         c_xmax (decode_corners self v); c_ymax (decode_corners self v)].

(** Two rows are compatible when, being detections of one class, they do not
    overlap beyond [iou_threshold]. *)
Definition compatible (self : DecodeDetections) (a b : list R) : Prop :=
  a <> zero_row -> b <> zero_row -> class_id a = class_id b ->
  IOU (nms_box a) (nms_box b) <= iou_threshold self.

(** ** The IoU of the specification *)

(** The corners in a row [[class_id; confidence; xmin; ymin; xmax; ymax]]. *)
Definition row_xmin (r : list R) : R := nth 2 r 0.
Definition row_ymin (r : list R) : R := nth 3 r 0.
Definition row_xmax (r : list R) : R := nth 4 r 0.
Definition row_ymax (r : list R) : R := nth 5 r 0.

(** A box of positive width and height. *)
Definition proper_box (r : list R) : Prop :=
  row_xmin r < row_xmax r /\ row_ymin r < row_ymax r.

(** A box of zero or negative width or height. *)
Definition degenerate (r : list R) : bool :=
  Rleb (row_xmax r - row_xmin r) 0 || Rleb (row_ymax r - row_ymin r) 0.

Definition corner_area (r : list R) : R :=
  (row_xmax r - row_xmin r) * (row_ymax r - row_ymin r).

(** The IoU in the words of the specification: the area of the intersection
    of the corner boxes over the area of their union; a box of zero or
    negative width or height overlaps nothing, itself included. *)
Definition spec_iou (a b : list R) : R :=
  if degenerate a || degenerate b then 0
  else
    let iw :=
      Rmax (Rmin (row_xmax a) (row_xmax b) - Rmax (row_xmin a) (row_xmin b)) 0
    in
    let ih :=
      Rmax (Rmin (row_ymax a) (row_ymax b) - Rmax (row_ymin a) (row_ymin b)) 0
    in
    iw * ih / (corner_area a + corner_area b - iw * ih).

(** The greedy suppression in the words of the specification, with the IoU
    of the specification: candidates by decreasing confidence, the first
    remaining one emitted, the remaining ones whose IoU with it exceeds
    [iou_threshold] discarded, at most [nms_max_output_size] emissions. *)
Definition spec_nms (self : DecodeDetections) (single_class : list (list R))
  : list (list R) :=
  greedy_nms (fun x c => Rgtb (spec_iou x c) (iou_threshold self))
    (Z.to_nat (nms_max_output_size self))
    (gather [] single_class (argsort_desc (map confidence single_class))).

(** ** The box decoder of the specification *)

(** A raw box in the words of the specification: the class scores, the
    four predicted offsets, the anchor in centroid format, the variances. *)
Record RawBoxRecord : Type := mkRaw {
  scores : list R;
  d_cx : R; d_cy : R; d_w : R; d_h : R;
  a_cx : R; a_cy : R; a_w : R; a_h : R;
  v_cx : R; v_cy : R; v_w : R; v_h : R
}.

(** Its vector on the last axis of the input, in the order of the
    specification. *)
Definition raw_vector (r : RawBoxRecord) : list R :=
  scores r ++
  [d_cx r; d_cy r; d_w r; d_h r;
   a_cx r; a_cy r; a_w r; a_h r;
   v_cx r; v_cy r; v_w r; v_h r].

(** The box decoder in the words of the specification. *)
Definition spec_corners (r : RawBoxRecord) : Corners :=
  let cx := d_cx r * v_cx r * a_w r + a_cx r in
  let cy := d_cy r * v_cy r * a_h r + a_cy r in
  let w := exp (d_w r * v_w r) * a_w r in
  let h := exp (d_h r * v_h r) * a_h r in
  mkCorners (cx - w / 2) (cy - h / 2) (cx + w / 2) (cy + h / 2).

(** The rescaling by the image size, when it is configured. *)
Definition spec_decoded_box (normalize : bool) (width height : R)
    (r : RawBoxRecord) : Corners :=
  let c := spec_corners r in
  if normalize
  then mkCorners (c_xmin c * width) (c_ymin c * height)
                 (c_xmax c * width) (c_ymax c * height)
  else c.

(** ** Sample layers and inputs *)

(** Scenario 1 of the specification: anchor (10, 10, 4, 4), variances
    (0.1, 0.1, 0.2, 0.2), offsets zero. *)
Definition scenario1 : RawBoxRecord :=
  mkRaw [1 / 10; 9 / 10] 0 0 0 0 10 10 4 4 (1 / 10) (1 / 10) (2 / 10) (2 / 10).

(** A layer as the SSD300 model builds it. *)
Definition layer300 : DecodeDetections :=
  mkLayer (1 / 100) (45 / 100) 200 400 "centroids" true
    (Some 300) (Some 300) 300 300.

(** The input of scenario 1: one image, one box, two classes. *)
Definition tensor_scenario1 : Tensor3 :=
  mkTensor3 1 1 14 [[raw_vector scenario1]].

(** Two inputs with one image of one box, their last axes 14 and 15 long. *)
Definition tensor14 : Tensor3 := mkTensor3 1 1 14 [[repeat 0 14]].
Definition tensor15 : Tensor3 := mkTensor3 1 1 15 [[repeat 0 15]].

(** A second box, one unit to the right of the box of scenario 1, with a
    lower score: its IoU with that box is 0.6. *)
Definition scenario1_shifted : RawBoxRecord :=
  mkRaw [2 / 10; 8 / 10] 0 0 0 0 11 10 4 4
    (1 / 10) (1 / 10) (2 / 10) (2 / 10).

(** One image with the two boxes. *)
Definition tensor_pair : Tensor3 :=
  mkTensor3 1 2 14 [[raw_vector scenario1_shifted; raw_vector scenario1]].

(** The decoded image of the two boxes. *)
Definition item_pair : list (list R) :=
  [[2 / 10; 8 / 10; 9; 8; 13; 12]; [1 / 10; 9 / 10; 8; 8; 12; 12]].

(** Two candidates of class 1, the second with its x corners exchanged: a
    box of negative width over the area of the first. *)
Definition rows_flipped : list (list R) :=
  [[1; 9 / 10; 0; 0; 10; 10]; [1; 8 / 10; 10; 0; 0; 10]].

(** The decoded image of scenario 1. *)
Definition item_scenario1 : list (list R) :=
  [[1 / 10; 9 / 10; 8; 8; 12; 12]].

(** A small layer for the worked examples: three rows per image, two per
    class, corners left unscaled. *)
Definition layer_small : DecodeDetections :=
  mkLayer (1 / 100) (45 / 100) 3 2 "centroids" false
    (Some 300) (Some 300) 300 300.

(** * Properties *)

(** ** Comparisons *)

Lemma Rgtb_true (x y : R) : Rgtb x y = true <-> x > y.
Proof.
  unfold Rgtb. destruct (Rgt_dec x y); split; intros; try easy.
Qed.

Lemma Rgtb_false (x y : R) : Rgtb x y = false <-> x <= y.
Proof.
  unfold Rgtb. destruct (Rgt_dec x y); split; intros; try easy; lra.
Qed.

Lemma Rleb_true (x y : R) : Rleb x y = true <-> x <= y.
Proof.
  unfold Rleb. destruct (Rle_dec x y); split; intros; try easy.
Qed.

Lemma Rleb_false (x y : R) : Rleb x y = false <-> x > y.
Proof.
  unfold Rleb. destruct (Rle_dec x y); split; intros; try easy; lra.
Qed.

(** ** The result monad *)

Lemma map_fn_loop_pure {A B : Type} (fn : A -> result B) (g : A -> B)
    (elems : list A) :
  (forall x, In x elems -> fn x = Ok (g x)) ->
  map_fn_loop fn elems = Ok (map g elems).
Proof.
  induction elems as [|x rest IH]; simpl; intros H; auto.
  rewrite H by auto. simpl. rewrite IH by auto. reflexivity.
Qed.

(** A function that never raises is mapped as by [map], over at least one
    element. *)
Lemma map_fn_pure {A B : Type} (fn : A -> result B) (g : A -> B)
    (elems : list A) :
  elems <> [] ->
  (forall x, In x elems -> fn x = Ok (g x)) ->
  map_fn fn elems = Ok (map g elems).
Proof.
  intros Hne H. destruct elems as [|x rest]; [contradiction|].
  unfold map_fn. now apply map_fn_loop_pure.
Qed.

Lemma class_range_nonempty (n_classes : nat) :
  (2 <= n_classes)%nat -> class_range n_classes <> [].
Proof.
  intros H E. apply (f_equal (@length nat)) in E.
  unfold class_range in E. rewrite length_seq in E. simpl in E. lia.
Qed.

Lemma class_indices_range (n_classes : nat) :
  (1 <= n_classes)%nat -> class_indices n_classes = Ok (class_range n_classes).
Proof.
  intros H. unfold class_indices.
  now replace (n_classes <? 1) with false by (symmetry; apply Nat.ltb_ge; lia).
Qed.

(** ** Sorting by decreasing value *)

Lemma insert_desc_perm (x : nat * R) (l : list (nat * R)) :
  Permutation (insert_desc x l) (x :: l).
Proof.
  induction l as [|y l IH]; simpl; auto.
  destruct (Rgtb (snd y) (snd x)); auto.
  rewrite IH. apply perm_swap.
Qed.

Lemma sort_desc_perm (l : list (nat * R)) : Permutation (sort_desc l) l.
Proof.
  induction l as [|x l IH]; simpl; auto.
  rewrite insert_desc_perm. now constructor.
Qed.

Lemma insert_desc_sorted (x : nat * R) (l : list (nat * R)) :
  StronglySorted desc l -> StronglySorted desc (insert_desc x l).
Proof.
  induction 1 as [|y l Hl IH Hy]; simpl.
  - repeat constructor.
  - destruct (Rgtb (snd y) (snd x)) eqn:E.
    + apply Rgtb_true in E. constructor; auto.
      apply (Permutation_Forall (Permutation_sym (insert_desc_perm x l))).
      constructor; auto. unfold desc. lra.
    + apply Rgtb_false in E. constructor.
      * now constructor.
      * constructor; auto.
        eapply Forall_impl; [|exact Hy]. unfold desc. intros; lra.
Qed.

Lemma sort_desc_sorted (l : list (nat * R)) : StronglySorted desc (sort_desc l).
Proof.
  induction l; simpl; [constructor | now apply insert_desc_sorted].
Qed.

Lemma map_fst_combine_seq (values : list R) (start : nat) :
  map fst (combine (seq start (length values)) values) =
  seq start (length values).
Proof.
  revert start. induction values; simpl; intros; f_equal; auto.
Qed.

Lemma argsort_desc_perm (values : list R) :
  Permutation (argsort_desc values) (seq 0 (length values)).
Proof.
  unfold argsort_desc. rewrite <- (map_fst_combine_seq values 0) at 2.
  apply Permutation_map, sort_desc_perm.
Qed.

Lemma argsort_desc_length (values : list R) :
  length (argsort_desc values) = length values.
Proof.
  rewrite (Permutation_length (argsort_desc_perm values)). apply length_seq.
Qed.

Lemma argsort_desc_NoDup (values : list R) : NoDup (argsort_desc values).
Proof.
  apply (Permutation_NoDup (Permutation_sym (argsort_desc_perm values))).
  apply seq_NoDup.
Qed.

Lemma argsort_desc_In (values : list R) (i : nat) :
  In i (argsort_desc values) -> (i < length values)%nat.
Proof.
  intros H. apply (Permutation_in _ (argsort_desc_perm values)) in H.
  apply in_seq in H. lia.
Qed.

Lemma combine_seq_nth (values : list R) (start : nat) :
  Forall (fun p => nth (fst p - start) values 0 = snd p /\ (start <= fst p)%nat)
         (combine (seq start (length values)) values).
Proof.
  revert start. induction values as [|v values IH]; simpl; intros start.
  - constructor.
  - constructor.
    + simpl. rewrite Nat.sub_diag. auto.
    + eapply Forall_impl; [|apply (IH (S start))].
      intros [i x]; simpl. intros [H1 H2]. split; [|lia].
      replace (i - start)%nat with (S (i - S start)) by lia. exact H1.
Qed.

Lemma gather_seq {A : Type} (d : A) (l : list A) :
  gather d l (seq 0 (length l)) = l.
Proof.
  unfold gather. induction l as [|a l IH]; simpl; auto.
  f_equal. rewrite <- seq_shift, map_map. exact IH.
Qed.

(** Rows gathered along the sorted indices: the same rows, reordered. *)
Lemma gather_argsort_perm {A : Type} (d : A) (l : list A) (values : list R) :
  length values = length l ->
  Permutation (gather d l (argsort_desc values)) l.
Proof.
  intros H. rewrite <- (gather_seq d l) at 2. rewrite <- H.
  apply Permutation_map, argsort_desc_perm.
Qed.

Lemma confidence_gather_argsort (rows : list (list R)) :
  map confidence (gather [] rows (argsort_desc (map confidence rows))) =
  map snd (sort_desc (combine (seq 0 (length (map confidence rows)))
                              (map confidence rows))).
Proof.
  unfold gather, argsort_desc. rewrite !map_map.
  apply map_ext_in. intros [i x] Hin. simpl.
  apply (Permutation_in _ (sort_desc_perm _)) in Hin.
  pose proof (combine_seq_nth (map confidence rows) 0) as HF.
  rewrite Forall_forall in HF. destruct (HF _ Hin) as [H _]. simpl in H.
  rewrite Nat.sub_0_r in H. rewrite <- H.
  change (nth i (map confidence rows) 0)
    with (nth i (map confidence rows) (confidence [])).
  now rewrite map_nth.
Qed.

Lemma StronglySorted_map {A B : Type} (f : A -> B) (P : B -> B -> Prop)
    (l : list A) :
  StronglySorted P (map f l) <-> StronglySorted (fun a b => P (f a) (f b)) l.
Proof.
  induction l as [|a l IH]; simpl; split; intros H; try constructor;
    inversion H; subst; try (now apply IH).
  - now rewrite Forall_map in H3.
  - now rewrite Forall_map.
Qed.

Lemma gather_argsort_sorted (rows : list (list R)) :
  StronglySorted conf_desc
    (gather [] rows (argsort_desc (map confidence rows))).
Proof.
  apply (StronglySorted_map confidence (fun x y => y <= x)).
  rewrite confidence_gather_argsort.
  apply (StronglySorted_map snd (fun x y => y <= x)).
  apply sort_desc_sorted.
Qed.

(** ** Pairs of rows *)

Section OrdPairs.

Context {A : Type}.
Variable P : A -> A -> Prop.

Lemma FOP_app (l1 l2 : list A) :
  ForallOrdPairs P l1 -> ForallOrdPairs P l2 ->
  (forall a b, In a l1 -> In b l2 -> P a b) ->
  ForallOrdPairs P (l1 ++ l2).
Proof.
  induction 1 as [|a l1 Ha H1 IH]; simpl; intros H2 Hc; auto.
  constructor.
  - apply Forall_app. split; [exact Ha|].
    apply Forall_forall. intros b Hb. apply Hc; simpl; auto.
  - apply IH; [exact H2|]. intros; apply Hc; simpl; auto.
Qed.

Lemma FOP_app_l (l1 l2 : list A) :
  ForallOrdPairs P (l1 ++ l2) -> ForallOrdPairs P l1.
Proof.
  induction l1 as [|a l1 IH]; simpl; intros H; [constructor|].
  inversion H as [|? ? Ha Hl]; subst. constructor; auto.
  now apply Forall_app in Ha.
Qed.

Lemma FOP_firstn (n : nat) (l : list A) :
  ForallOrdPairs P l -> ForallOrdPairs P (firstn n l).
Proof.
  intros H. rewrite <- (firstn_skipn n l) in H. now apply FOP_app_l in H.
Qed.

Lemma FOP_nth (l : list A) :
  ForallOrdPairs P l ->
  forall i j a b, (i < j)%nat ->
    nth_error l i = Some a -> nth_error l j = Some b -> P a b.
Proof.
  induction 1 as [|x l Hx Hl IH]; intros i j a b Hij Hi Hj.
  - destruct i; discriminate.
  - destruct j as [|j]; [lia|]. simpl in Hj. destruct i as [|i].
    + injection Hi as <-. rewrite Forall_forall in Hx.
      apply Hx. eapply nth_error_In; eauto.
    + simpl in Hi. apply (IH i j); auto. lia.
Qed.

Hypothesis P_sym : forall a b, P a b -> P b a.

Lemma FOP_perm (l l' : list A) :
  Permutation l l' -> ForallOrdPairs P l -> ForallOrdPairs P l'.
Proof.
  induction 1 as [|x l l' Hp IH|x y l|l l' l'' _ IH1 _ IH2]; intros H; auto.
  - inversion H; subst. constructor; auto.
    eapply Permutation_Forall; eauto.
  - inversion H as [|? ? Hy Hxl]; subst.
    inversion Hxl as [|? ? Hx Hl]; subst.
    inversion Hy; subst. repeat constructor; auto.
Qed.

Lemma FOP_nth_sym (l : list A) :
  ForallOrdPairs P l ->
  forall i j a b, i <> j ->
    nth_error l i = Some a -> nth_error l j = Some b -> P a b.
Proof.
  intros H i j a b Hij Hi Hj.
  destruct (Nat.lt_total i j) as [Hlt|[Heq|Hgt]]; [|contradiction|].
  - eapply FOP_nth; eauto.
  - apply P_sym. eapply FOP_nth; eauto.
Qed.

End OrdPairs.

Lemma FOP_map {A B : Type} (f : A -> B) (P : A -> A -> Prop)
    (Q : B -> B -> Prop) (l : list A) :
  (forall a b, In a l -> In b l -> P a b -> Q (f a) (f b)) ->
  ForallOrdPairs P l -> ForallOrdPairs Q (map f l).
Proof.
  intros Himp H. induction H as [|a l Ha Hl IH]; simpl; constructor.
  - rewrite Forall_map. rewrite Forall_forall in *. intros b Hb.
    apply Himp; simpl; auto.
  - apply IH. intros; apply Himp; simpl; auto.
Qed.

(** ** Non-maximum suppression *)

Section SuppressionFacts.

Context {A : Type}.
Variable overlaps : A -> A -> bool.

Lemma greedy_nms_nil (n : nat) : greedy_nms overlaps n [] = [].
Proof. now destruct n. Qed.

Lemma filter_twice (f g : A -> bool) (l : list A) :
  filter (fun x => f x && g x) l = filter g (filter f l).
Proof.
  induction l as [|a l IH]; simpl; auto.
  destruct (f a); simpl; [destruct (g a)|]; now rewrite IH.
Qed.

(** The kernel's loop computes the greedy selection. *)
Lemma nms_loop_greedy (output_size : nat) (candidates selected : list A) :
  (length selected <= output_size)%nat ->
  nms_loop overlaps output_size candidates selected =
  selected ++
    greedy_nms overlaps (output_size - length selected)
      (filter (fun x => negb (existsb (overlaps x) selected)) candidates).
Proof.
  revert selected.
  induction candidates as [|c rest IH]; intros selected Hlen; simpl.
  - now rewrite greedy_nms_nil, app_nil_r.
  - destruct (length selected <? output_size) eqn:E.
    + apply Nat.ltb_lt in E.
      destruct (existsb (overlaps c) selected) eqn:Ec; simpl.
      * now apply IH.
      * rewrite IH by (rewrite length_app; simpl; lia).
        rewrite <- app_assoc. simpl. f_equal.
        replace (output_size - length selected)%nat
          with (S (output_size - length (selected ++ [c])))
          by (rewrite length_app; simpl; lia).
        simpl. f_equal. f_equal. rewrite <- filter_twice.
        apply filter_ext. intros x.
        rewrite existsb_app. simpl. rewrite orb_false_r.
        now rewrite negb_orb.
    + apply Nat.ltb_ge in E.
      replace (output_size - length selected)%nat with 0%nat by lia.
      simpl. now rewrite app_nil_r.
Qed.

Lemma nms_loop_from_empty (output_size : nat) (candidates : list A) :
  nms_loop overlaps output_size candidates [] =
  greedy_nms overlaps output_size candidates.
Proof.
  rewrite nms_loop_greedy by (simpl; lia). simpl.
  rewrite Nat.sub_0_r. f_equal.
  induction candidates; simpl; now f_equal.
Qed.

Lemma greedy_nms_In (n : nat) (l : list A) (x : A) :
  In x (greedy_nms overlaps n l) -> In x l.
Proof.
  revert l. induction n as [|n IH]; intros [|c rest]; simpl; try easy.
  intros [->|H]; auto. apply IH in H. apply filter_In in H. tauto.
Qed.

Lemma greedy_nms_length (n : nat) (l : list A) :
  (length (greedy_nms overlaps n l) <= n)%nat.
Proof.
  revert l. induction n as [|n IH]; intros [|c rest]; simpl; try lia.
  specialize (IH (filter (fun x => negb (overlaps x c)) rest)). lia.
Qed.

(** A box emitted later does not overlap a box emitted before. *)
Lemma greedy_nms_pairs (n : nat) (l : list A) :
  ForallOrdPairs (fun a b => overlaps b a = false) (greedy_nms overlaps n l).
Proof.
  revert l. induction n as [|n IH]; intros [|c rest]; simpl;
    try constructor; auto.
  apply Forall_forall. intros x Hx.
  apply greedy_nms_In, filter_In in Hx. destruct Hx as [_ Hx].
  now apply negb_true_iff in Hx.
Qed.

Lemma greedy_nms_enough (n n' : nat) (l : list A) :
  (length l <= n)%nat -> (length l <= n')%nat ->
  greedy_nms overlaps n l = greedy_nms overlaps n' l.
Proof.
  revert n' l. induction n as [|n IH]; intros n' l Hn Hn'.
  - destruct l; [|simpl in Hn; lia]. now rewrite !greedy_nms_nil.
  - destruct l as [|c rest]; [now rewrite !greedy_nms_nil|].
    destruct n' as [|n']; [simpl in Hn'; lia|]. simpl in *. f_equal.
    pose proof (filter_length_le (fun x => negb (overlaps x c)) rest).
    apply IH; lia.
Qed.

(** Capping the emissions by the number of candidates changes nothing. *)
Lemma greedy_nms_min (n : nat) (l : list A) :
  greedy_nms overlaps (Nat.min n (length l)) l = greedy_nms overlaps n l.
Proof.
  destruct (Nat.le_gt_cases n (length l)) as [H|H].
  - now rewrite Nat.min_l.
  - rewrite Nat.min_r by lia. apply greedy_nms_enough; lia.
Qed.

End SuppressionFacts.

Lemma intersection_area_sym (a b : list R) :
  intersection_area a b = intersection_area b a.
Proof.
  unfold intersection_area.
  now rewrite (Rmax_comm (Rmin (nth 0 a 0) _)), (Rmax_comm (Rmin (nth 1 a 0) _)),
    (Rmin_comm (Rmax (nth 0 a 0) _)), (Rmin_comm (Rmax (nth 1 a 0) _)).
Qed.

Lemma IOU_sym (a b : list R) : IOU a b = IOU b a.
Proof.
  unfold IOU. rewrite orb_comm, (intersection_area_sym a b).
  now rewrite (Rplus_comm (box_area a)).
Qed.

(** ** One class of one image *)

Lemma confident_rows_In (self : DecodeDetections) (batch_item : list (list R))
    (index : nat) (r : list R) :
  In r (confident_rows self batch_item index) <->
  In r (single_class_rows batch_item index) /\
  confidence r > confidence_thresh self.
Proof.
  unfold confident_rows. rewrite filter_In. unfold threshold_met.
  now rewrite Rgtb_true.
Qed.

Lemma single_class_rows_In (batch_item : list (list R)) (index : nat)
    (r : list R) :
  In r (single_class_rows batch_item index) ->
  exists box, In box batch_item /\
    r = [INR index; nth index box 0] ++ take_last 4 box.
Proof.
  unfold single_class_rows. rewrite in_map_iff.
  intros (box & <- & Hin). now exists box.
Qed.


Lemma tensor_size_confident (self : DecodeDetections)
    (batch_item : list (list R)) (index : nat) :
  (tensor_size (confident_rows self batch_item index) =? 0) = true <->
  confident_rows self batch_item index = [].
Proof.
  rewrite Nat.eqb_eq. unfold tensor_size.
  destruct (confident_rows self batch_item index) as [|r rows] eqn:E.
  - simpl. tauto.
  - assert (Hr : In r (confident_rows self batch_item index))
      by (rewrite E; now left).
    apply confident_rows_In in Hr as [Hr _].
    apply single_class_rows_In in Hr as (box & _ & ->).
    simpl. split; [lia | discriminate].
Qed.

(** [perform_nms] is the greedy selection of the specification. *)
Lemma perform_nms_greedy (self : DecodeDetections)
    (single_class : list (list R)) :
  0 <= iou_threshold self <= 1 ->
  (0 <= nms_max_output_size self)%Z ->
  perform_nms self single_class =
  Ok (gather [] single_class
        (greedy_nms
           (iou_exceeds (map nms_box single_class) (iou_threshold self))
           (Z.to_nat (nms_max_output_size self))
           (argsort_desc (map confidence single_class)))).
Proof.
  intros Hiou Hmax. unfold perform_nms, non_max_suppression.
  replace (Rgtb 0 (iou_threshold self)) with false
    by (symmetry; apply Rgtb_false; lra).
  replace (Rgtb (iou_threshold self) 1) with false
    by (symmetry; apply Rgtb_false; lra).
  replace (nms_max_output_size self <? 0)%Z with false
    by (symmetry; apply Z.ltb_ge; lia).
  simpl. rewrite nms_loop_from_empty.
  change (map (fun r => nth 1 r 0) single_class)
    with (map confidence single_class).
  replace (length (map nms_box single_class))
    with (length (argsort_desc (map confidence single_class)))
    by (now rewrite argsort_desc_length, !length_map).
  now rewrite greedy_nms_min.
Qed.

Lemma class_detections_length (self : DecodeDetections)
    (batch_item : list (list R)) (index : nat) :
  (length (class_detections self batch_item index) <=
   Z.to_nat (nms_max_output_size self))%nat.
Proof.
  unfold class_detections, gather. rewrite length_map.
  apply greedy_nms_length.
Qed.

Lemma class_detections_In (self : DecodeDetections)
    (batch_item : list (list R)) (index : nat) (r : list R) :
  In r (class_detections self batch_item index) ->
  In r (confident_rows self batch_item index).
Proof.
  unfold class_detections, gather. rewrite in_map_iff.
  intros (i & <- & Hi). apply nth_In.
  apply greedy_nms_In, argsort_desc_In in Hi. now rewrite length_map in Hi.
Qed.

(** Two detections of one class do not overlap beyond the threshold. *)
Lemma class_detections_pairs (self : DecodeDetections)
    (batch_item : list (list R)) (index : nat) :
  ForallOrdPairs
    (fun a b => IOU (nms_box a) (nms_box b) <= iou_threshold self)
    (class_detections self batch_item index).
Proof.
  unfold class_detections.
  set (sc := confident_rows self batch_item index).
  eapply FOP_map; [|apply greedy_nms_pairs].
  intros i j Hi Hj H. simpl in H. unfold iou_exceeds in H.
  apply Rgtb_false in H.
  apply greedy_nms_In, argsort_desc_In in Hi, Hj.
  rewrite length_map in Hi, Hj.
  rewrite !(nth_indep _ [] (nms_box [])) in H by (now rewrite length_map).
  rewrite !map_nth in H. now rewrite IOU_sym.
Qed.

(** The block of a class: its detections, then zero rows. *)
Lemma filter_single_class_block (self : DecodeDetections)
    (batch_item : list (list R)) (index : nat) :
  0 <= iou_threshold self <= 1 ->
  (0 < nms_max_output_size self)%Z ->
  filter_single_class self batch_item index =
  Ok (class_detections self batch_item index ++
      repeat zero_row
        (Z.to_nat (nms_max_output_size self) -
         length (class_detections self batch_item index))).
Proof.
  intros Hiou Hmax. unfold filter_single_class.
  fold (confident_rows self batch_item index).
  pose proof (class_detections_length self batch_item index) as Hlen.
  destruct (tensor_size (confident_rows self batch_item index) =? 0) eqn:E.
  - apply tensor_size_confident in E.
    unfold class_detections in *. rewrite E in *. simpl.
    change (argsort_desc []) with (@nil nat). rewrite greedy_nms_nil. simpl. unfold pad_rows.
    replace (nms_max_output_size self - 1 <? 0)%Z with false
      by (symmetry; apply Z.ltb_ge; lia).
    rewrite Nat.sub_0_r.
    replace (Z.to_nat (nms_max_output_size self))
      with (S (Z.to_nat (nms_max_output_size self - 1))) by lia.
    reflexivity.
  - rewrite perform_nms_greedy by (auto; lia). simpl.
    fold (class_detections self batch_item index). unfold pad_rows.
    replace (_ <? 0)%Z with false by (symmetry; apply Z.ltb_ge; lia).
    do 3 f_equal. lia.
Qed.

(** ** One image *)

Lemma filtered_predictions_of_blocks (self : DecodeDetections)
    (n_classes : nat) (batch_item : list (list R)) :
  0 <= iou_threshold self <= 1 ->
  (0 < nms_max_output_size self)%Z ->
  (2 <= n_classes)%nat ->
  filtered_predictions_of self n_classes batch_item =
  Ok (all_blocks self n_classes batch_item).
Proof.
  intros Hiou Hmax Hn. unfold filtered_predictions_of.
  rewrite class_indices_range by lia. simpl.
  rewrite (map_fn_pure _ (class_block self batch_item)); [reflexivity| |].
  - now apply class_range_nonempty.
  - intros c _. now apply filter_single_class_block.
Qed.

Lemma padded_predictions_length (self : DecodeDetections)
    (fp : list (list R)) :
  (0 <= top_k self)%Z ->
  (Z.to_nat (top_k self) <= length (padded_predictions self fp))%nat.
Proof.
  intros H. unfold padded_predictions. rewrite length_app, repeat_length. lia.
Qed.

Lemma top_k_stage_ranked (self : DecodeDetections) (fp : list (list R)) :
  (0 <= top_k self)%Z ->
  top_k_stage self fp = Ok (firstn (Z.to_nat (top_k self)) (ranked self fp)).
Proof.
  intros Hk. unfold top_k_stage, ranked, padded_predictions.
  destruct (Z.of_nat (length fp) >=? top_k self)%Z eqn:E.
  - apply Z.geb_le in E.
    replace (Z.to_nat (top_k self - Z.of_nat (length fp))) with 0%nat by lia.
    simpl. rewrite app_nil_r. unfold top_k_branch, nn_top_k.
    replace (top_k self <? 0)%Z with false by (symmetry; apply Z.ltb_ge; lia).
    rewrite length_map.
    replace (Z.of_nat (length fp) <? top_k self)%Z with false
      by (symmetry; apply Z.ltb_ge; lia).
    simpl. unfold gather. now rewrite firstn_map.
  - rewrite Z.geb_leb in E. apply Z.leb_gt in E.
    unfold pad_and_top_k, pad_rows.
    replace (top_k self - Z.of_nat (length fp) <? 0)%Z with false
      by (symmetry; apply Z.ltb_ge; lia).
    simpl. unfold nn_top_k.
    replace (top_k self <? 0)%Z with false by (symmetry; apply Z.ltb_ge; lia).
    rewrite length_map, length_app, repeat_length.
    replace (Z.of_nat _ <? top_k self)%Z with false
      by (symmetry; apply Z.ltb_ge; lia).
    simpl. unfold gather. now rewrite firstn_map.
Qed.

Lemma filter_predictions_frame (self : DecodeDetections) (n_classes : nat)
    (batch_item : list (list R)) :
  0 <= iou_threshold self <= 1 ->
  (0 < nms_max_output_size self)%Z ->
  (0 <= top_k self)%Z ->
  (2 <= n_classes)%nat ->
  filter_predictions self n_classes batch_item =
  Ok (frame_result self n_classes batch_item).
Proof.
  intros Hiou Hmax Hk Hn. unfold filter_predictions.
  rewrite filtered_predictions_of_blocks by auto. simpl.
  now apply top_k_stage_ranked.
Qed.

Lemma ranked_perm (self : DecodeDetections) (fp : list (list R)) :
  Permutation (ranked self fp) (padded_predictions self fp).
Proof.
  unfold ranked. apply gather_argsort_perm. apply length_map.
Qed.

Lemma frame_result_length (self : DecodeDetections) (n_classes : nat)
    (batch_item : list (list R)) :
  (0 <= top_k self)%Z ->
  length (frame_result self n_classes batch_item) = Z.to_nat (top_k self).
Proof.
  intros Hk. unfold frame_result. apply firstn_length_le.
  rewrite (Permutation_length (ranked_perm _ _)).
  now apply padded_predictions_length.
Qed.

Lemma In_firstn {A : Type} (n : nat) (l : list A) (x : A) :
  In x (firstn n l) -> In x l.
Proof.
  intros H. rewrite <- (firstn_skipn n l). apply in_or_app. now left.
Qed.

(** Where the rows of a frame come from. *)
Lemma class_block_In (self : DecodeDetections) (batch_item : list (list R))
    (index : nat) (r : list R) :
  In r (class_block self batch_item index) ->
  r = zero_row \/ In r (class_detections self batch_item index).
Proof.
  unfold class_block. rewrite in_app_iff. intros [H|H]; auto.
  apply repeat_spec in H. auto.
Qed.

Lemma all_blocks_In (self : DecodeDetections) (n_classes : nat)
    (batch_item : list (list R)) (r : list R) :
  In r (all_blocks self n_classes batch_item) ->
  r = zero_row \/
  exists index, In index (class_range n_classes) /\
    In r (class_detections self batch_item index).
Proof.
  unfold all_blocks. rewrite in_concat.
  intros (block & Hb & Hr). apply in_map_iff in Hb as (c & <- & Hc).
  apply class_block_In in Hr as [Hr|Hr]; eauto.
Qed.

Lemma frame_result_In (self : DecodeDetections) (n_classes : nat)
    (batch_item : list (list R)) (r : list R) :
  In r (frame_result self n_classes batch_item) ->
  r = zero_row \/
  exists index, In index (class_range n_classes) /\
    In r (class_detections self batch_item index).
Proof.
  unfold frame_result. intros H. apply In_firstn in H.
  apply (Permutation_in _ (ranked_perm _ _)) in H.
  unfold padded_predictions in H. apply in_app_iff in H as [H|H].
  - now apply all_blocks_In.
  - apply repeat_spec in H. auto.
Qed.

(** ** The whole batch *)

Lemma call_frames (self : DecodeDetections) (y_pred : Tensor3) :
  0 <= iou_threshold self <= 1 ->
  (0 < nms_max_output_size self)%Z ->
  (0 <= top_k self)%Z ->
  (14 <= shape2 y_pred)%nat ->
  entries y_pred <> [] ->
  call self y_pred =
  Ok (map (fun image =>
             frame_result self (shape2 y_pred - 12)
               (map (decode_box self) image))
          (entries y_pred)).
Proof.
  intros Hiou Hmax Hk Hd Hne. unfold call.
  replace (shape2 y_pred <? 12) with false
    by (symmetry; apply Nat.ltb_ge; lia).
  replace (shape2 y_pred - 12 + 4 - 4)%nat with (shape2 y_pred - 12)%nat by lia.
  rewrite class_indices_range by lia. simpl.
  rewrite (map_fn_pure _ (frame_result self (shape2 y_pred - 12))).
  - now rewrite map_map.
  - intros E. apply map_eq_nil in E. contradiction.
  - intros item _. apply filter_predictions_frame; auto. lia.
Qed.

Lemma decode_box_length (self : DecodeDetections) (v : list R) :
  (12 <= length v)%nat ->
  length (decode_box self v) = (length v - 12 + 4)%nat.
Proof.
  intros H. unfold decode_box, drop_last.
  rewrite length_app, firstn_length_le by lia. reflexivity.
Qed.


Lemma Forall2_map_self {A B : Type} (P : A -> B -> Prop) (f : A -> B)
    (l : list A) :
  Forall (fun x => P x (f x)) l -> Forall2 P l (map f l).
Proof.
  induction 1; simpl; constructor; auto.
Qed.

(** ** The layout of a raw box *)

Lemma neg_index_raw (r : RawBoxRecord) (k : nat) :
  (k <= 12)%nat ->
  neg_index (raw_vector r) k =
  nth (12 - k)
    [d_cx r; d_cy r; d_w r; d_h r;
     a_cx r; a_cy r; a_w r; a_h r;
     v_cx r; v_cy r; v_w r; v_h r] 0.
Proof.
  intros H. unfold neg_index, raw_vector. rewrite length_app.
  cbn [length].
  replace (length (scores r) + 12 - k)%nat
    with (length (scores r) + (12 - k))%nat by lia.
  apply app_nth2_plus.
Qed.

Lemma centroids_to_corners_raw (r : RawBoxRecord) :
  centroids_to_corners (raw_vector r) = spec_corners r.
Proof.
  unfold centroids_to_corners, spec_corners.
  rewrite !neg_index_raw by lia. cbn [nth Nat.sub].
  f_equal; lra.
Qed.

Lemma drop_last_raw (r : RawBoxRecord) :
  drop_last 12 (raw_vector r) = scores r.
Proof.
  unfold drop_last, raw_vector. rewrite length_app. cbn [length].
  replace (length (scores r) + 12 - 12)%nat
    with (length (scores r) + 0)%nat by lia.
  rewrite firstn_app_2. cbn [firstn]. apply app_nil_r.
Qed.

(** ** Box decoding *)

(** C2. A raw box is decoded by the formulas of the specification:
    [cx = dcx * vcx * w_a + cx_a], [cy = dcy * vcy * h_a + cy_a],
    [w = exp (dw * vw) * w_a], [h = exp (dh * vh) * h_a], corners at
    [cx -/+ w/2] and [cy -/+ h/2]; when [normalize_coords] is set the x
    corners are multiplied by the image width and the y corners by the image
    height, otherwise they are left as they are; the class scores are kept. *)
Theorem decode_box_formula (self : DecodeDetections) (r : RawBoxRecord) :
  decode_corners self (raw_vector r) =
    spec_decoded_box (normalize_coords self)
      (channels_last_img_width self) (channels_last_img_height self) r /\
  decode_box self (raw_vector r) =
    let c := spec_decoded_box (normalize_coords self)
               (channels_last_img_width self) (channels_last_img_height self) r
    in scores r ++ [c_xmin c; c_ymin c; c_xmax c; c_ymax c].
Proof.
  assert (H : decode_corners self (raw_vector r) =
              spec_decoded_box (normalize_coords self)
                (channels_last_img_width self)
                (channels_last_img_height self) r).
  { unfold decode_corners, spec_decoded_box, normalized_coords,
      non_normalized_coords.
    rewrite centroids_to_corners_raw. now destruct (normalize_coords self). }
  split; [exact H|].
  unfold decode_box. now rewrite H, drop_last_raw.
Qed.

(** The decoded extent of a positive anchor extent is positive. *)
Lemma decoded_extent_positive (offset variance anchor : R) :
  0 < anchor -> 0 < exp (offset * variance) * anchor.
Proof.
  intros H. apply Rmult_lt_0_compat; [apply exp_pos | exact H].
Qed.

(** In exact arithmetic a positive anchor width and height give corners in
    order.  The 32-bit floats of the source can overflow on the way, which
    this embedding does not show. *)
Lemma real_corners_ordered (self : DecodeDetections) (r : RawBoxRecord) :
  0 < a_w r -> 0 < a_h r ->
  0 <= channels_last_img_width self -> 0 <= channels_last_img_height self ->
  let c := decode_corners self (raw_vector r) in
  c_xmin c <= c_xmax c /\ c_ymin c <= c_ymax c.
Proof.
  intros Hw Hh Hiw Hih.
  pose proof (decoded_extent_positive (d_w r) (v_w r) (a_w r) Hw).
  pose proof (decoded_extent_positive (d_h r) (v_h r) (a_h r) Hh).
  unfold decode_corners, normalized_coords, non_normalized_coords.
  rewrite centroids_to_corners_raw. unfold spec_corners.
  destruct (normalize_coords self); cbn [c_xmin c_xmax c_ymin c_ymax].
  - split; apply Rmult_le_compat_r; auto; lra.
  - split; lra.
Qed.

Example scenario1_corners :
  centroids_to_corners (raw_vector scenario1) = mkCorners 8 8 12 12.
Proof.
  rewrite centroids_to_corners_raw. unfold spec_corners, scenario1.
  cbn [d_cx d_cy d_w d_h a_cx a_cy a_w a_h v_cx v_cy v_w v_h].
  rewrite !Rmult_0_l, exp_0. f_equal; lra.
Qed.

(** ** Construction *)

Lemma fits_int64_spec (value : Z) :
  fits_int64 value = true <-> (- 2 ^ 63 <= value < 2 ^ 63)%Z.
Proof.
  unfold fits_int64. rewrite andb_true_iff, Z.leb_le, Z.ltb_lt. tauto.
Qed.

Lemma init_Ok (ct iou : R) (k nms : Z) (nc : bool) (h w : R) :
  fits_int64 k = true -> fits_int64 nms = true ->
  init "tensorflow" ct iou k nms "centroids" nc (Some h) (Some w) =
  Ok (mkLayer ct iou k nms "centroids" nc (Some h) (Some w) h w).
Proof.
  intros Hk Hnms. unfold init, constant_int.
  cbn [String.eqb Ascii.eqb Bool.eqb negb is_None orb].
  rewrite andb_false_r, Hk, Hnms. reflexivity.
Qed.

Lemma init_Ok_inv (backend : string) (ct iou : R) (k nms : Z)
    (c : string) (nc : bool) (h w : option R) (self : DecodeDetections) :
  init backend ct iou k nms c nc h w = Ok self ->
  backend = "tensorflow"%string /\ c = "centroids"%string /\
  fits_int64 k = true /\ fits_int64 nms = true /\
  exists hv wv,
    h = Some hv /\ w = Some wv /\
    self = mkLayer ct iou k nms c nc h w hv wv.
Proof.
  unfold init, constant_int.
  destruct (String.eqb_spec backend "tensorflow") as [Hb|Hb]; simpl;
    [|discriminate].
  destruct (nc && (is_None h || is_None w)); [discriminate|].
  destruct (String.eqb_spec c "centroids") as [Hc|Hc]; simpl; [|discriminate].
  destruct (fits_int64 k); simpl; [|discriminate].
  destruct h as [hv|]; simpl; [|discriminate].
  destruct w as [wv|]; simpl; [|discriminate].
  destruct (fits_int64 nms); simpl; [|discriminate].
  intros H. injection H as <-. repeat split; auto. now exists hv, wv.
Qed.

Lemma layer300_valid : valid_config layer300.
Proof.
  unfold valid_config, layer300. cbn -[Rdiv]. repeat split; try lra; lia.
Qed.

Example layer300_constructed :
  init "tensorflow" (1 / 100) (45 / 100) 200 400 "centroids" true
    (Some 300) (Some 300) = Ok layer300.
Proof. now apply init_Ok. Qed.

(** C7, as the code has it: no numeric option is checked against its
    documented domain.  With the TensorFlow backend, the centroid format,
    both image dimensions given and no further keyword argument,
    construction succeeds for every [confidence_thresh] and
    [iou_threshold] and for every [top_k] and [nms_max_output_size] that
    fit in 64 bits, and the layer holds these options as they were
    passed. *)
Theorem init_numeric_options_unchecked
    (ct iou : R) (k nms : Z) (nc : bool) (h w : R) :
  (- 2 ^ 63 <= k < 2 ^ 63)%Z -> (- 2 ^ 63 <= nms < 2 ^ 63)%Z ->
  exists self,
    init "tensorflow" ct iou k nms "centroids" nc (Some h) (Some w) = Ok self /\
    confidence_thresh self = ct /\ iou_threshold self = iou /\
    top_k self = k /\ nms_max_output_size self = nms.
Proof.
  intros Hk Hnms. eexists. split.
  - apply init_Ok; now apply fits_int64_spec.
  - repeat split.
Qed.

Lemma init_numeric_options_unchecked_witness :
  exists self,
    init "tensorflow" 2 (3 / 2) (-5) 0 "centroids" true (Some 300) (Some 300)
    = Ok self /\
    confidence_thresh self = 2 /\ iou_threshold self = 3 / 2 /\
    top_k self = (-5)%Z /\ nms_max_output_size self = 0%Z.
Proof.
  apply (init_numeric_options_unchecked 2 (3 / 2) (-5) 0 true 300 300); lia.
Defined.

(** C7 fails as stated: a [confidence_thresh] of 2 and a [top_k] of 0 are
    accepted. *)
Lemma init_accepts_out_of_domain :
  2 >= 1 /\ (0 <= 0)%Z /\
  init "tensorflow" 2 (45 / 100) 0 400 "centroids" true (Some 300) (Some 300)
  = Ok (mkLayer 2 (45 / 100) 0 400 "centroids" true (Some 300) (Some 300)
          300 300).
Proof.
  split; [lra|]. split; [lia|]. now apply init_Ok.
Qed.

(** C9. With [normalize_coords] set and an image dimension absent the
    constructor raises [ValueError] (line 79); with [normalize_coords]
    unset and both dimensions absent it raises as well, from the constant of
    line 99, where the docstring says the dimensions are not needed. *)
Theorem init_without_image_size (ct iou : R) (k nms : Z) (d : option R) :
  init "tensorflow" ct iou k nms "centroids" true None d = Raise ValueError /\
  init "tensorflow" ct iou k nms "centroids" true d None = Raise ValueError /\
  init "tensorflow" ct iou k nms "centroids" false None None
  = Raise ValueError.
Proof.
  repeat split; unfold init, constant_int;
    cbn [String.eqb Ascii.eqb Bool.eqb negb is_None orb andb];
    destruct d; destruct (fits_int64 k); reflexivity.
Qed.

(** ** Shapes *)

Lemma decoded_row (self : DecodeDetections) (n_classes index : nat)
    (v : list R) :
  length v = (n_classes + 12)%nat -> (index < n_classes)%nat ->
  [INR index; nth index (decode_box self v) 0] ++
    take_last 4 (decode_box self v) =
  let c := decode_corners self v in
  [INR index; nth index v 0; c_xmin c; c_ymin c; c_xmax c; c_ymax c].
Proof.
  intros Hlen Hi. unfold decode_box, take_last, drop_last.
  rewrite length_app, firstn_length_le by lia. cbn [length].
  replace (length v - 12 + 4 - 4)%nat with (length v - 12)%nat by lia.
  rewrite skipn_app, firstn_length_le by lia. rewrite Nat.sub_diag.
  rewrite skipn_all2 by (rewrite firstn_length_le; lia).
  rewrite app_nth1 by (rewrite firstn_length_le; lia).
  rewrite nth_firstn.
  replace (index <? length v - 12) with true
    by (symmetry; apply Nat.ltb_lt; lia).
  reflexivity.
Qed.

Lemma class_range_In (n_classes index : nat) :
  In index (class_range n_classes) <-> (1 <= index < n_classes)%nat.
Proof.
  unfold class_range. rewrite in_seq. lia.
Qed.

Lemma frame_result_rows (self : DecodeDetections) (n_classes : nat)
    (image : list (list R)) (r : list R) :
  Forall (fun v => length v = (n_classes + 12)%nat) image ->
  In r (frame_result self n_classes (map (decode_box self) image)) ->
  r = zero_row \/ detection_of self n_classes image r.
Proof.
  intros Hshape Hr. apply frame_result_In in Hr as [Hr|(c & Hc & Hr)]; auto.
  right. apply class_range_In in Hc.
  apply class_detections_In, confident_rows_In in Hr as [Hr Hconf].
  apply single_class_rows_In in Hr as (box & Hbox & Hr).
  apply in_map_iff in Hbox as (v & <- & Hv).
  rewrite Forall_forall in Hshape.
  rewrite (decoded_row self n_classes) in Hr by (auto; lia).
  exists c, v. auto.
Qed.

Lemma detection_of_length (self : DecodeDetections) (n_classes : nat)
    (image : list (list R)) (r : list R) :
  detection_of self n_classes image r -> length r = 6%nat.
Proof.
  intros (c & v & _ & _ & _ & ->). reflexivity.
Qed.

(** The frames of a valid batch with a positive class and an image. *)
Lemma call_spec (self : DecodeDetections) (n_classes : nat) (y_pred : Tensor3) :
  valid_config self -> valid_input n_classes y_pred ->
  (2 <= n_classes)%nat -> (1 <= shape0 y_pred)%nat ->
  call self y_pred =
  Ok (map (fun image =>
             frame_result self n_classes (map (decode_box self) image))
          (entries y_pred)).
Proof.
  intros (_ & Hiou & Hk & Hmax) ((Hb & _) & Hd) Hn Hbatch.
  rewrite call_frames; auto; try lia.
  - now replace (shape2 y_pred - 12)%nat with n_classes by lia.
  - intros E. rewrite E in Hb. simpl in Hb. lia.
Qed.

Lemma valid_input_rows (n_classes : nat) (y_pred : Tensor3) :
  valid_input n_classes y_pred ->
  Forall (Forall (fun v => length v = (n_classes + 12)%nat)) (entries y_pred).
Proof.
  intros ((_ & Himg) & Hd). eapply Forall_impl; [|exact Himg].
  intros image [_ H]. now rewrite <- Hd.
Qed.

Lemma frames_shape (self : DecodeDetections) (n_classes : nat)
    (images : list (list (list R))) :
  (0 <= top_k self)%Z ->
  Forall (Forall (fun v => length v = (n_classes + 12)%nat)) images ->
  Forall (matrix_shape (Z.to_nat (top_k self)) 6)
    (map (fun image =>
            frame_result self n_classes (map (decode_box self) image))
         images).
Proof.
  intros Hk Hrows. rewrite Forall_map.
  eapply Forall_impl; [|exact Hrows]. intros image Himage. split.
  - now apply frame_result_length.
  - apply Forall_forall. intros r Hr.
    apply frame_result_rows in Hr as [->|Hr]; auto.
    eapply detection_of_length; eauto.
Qed.

(** C1. For a valid configuration and an input of shape
    [(batch_size, n_boxes, n_classes + 12)] with at least one image and one
    class beside the background, [call] returns a tensor of shape
    [(batch_size, top_k, 6)]; a row is the zero row or
    [[class_id; confidence; xmin; ymin; xmax; ymax]] of a box of the image
    it stands for. *)
Theorem call_output_shape (self : DecodeDetections) (n_classes : nat)
    (y_pred : Tensor3) :
  valid_config self -> valid_input n_classes y_pred ->
  (2 <= n_classes)%nat -> (1 <= shape0 y_pred)%nat ->
  exists out,
    call self y_pred = Ok out /\
    has_shape3 (shape0 y_pred) (Z.to_nat (top_k self)) 6 out /\
    Forall2
      (fun image frame =>
         Forall (fun r => r = zero_row \/ detection_of self n_classes image r)
                frame)
      (entries y_pred) out.
Proof.
  intros Hcfg Hin Hn Hbatch.
  eexists. split; [now apply (call_spec self n_classes)|].
  pose proof (valid_input_rows _ _ Hin) as Hrows.
  destruct Hcfg as (_ & _ & Hk & _). destruct Hin as ((Hb & _) & _).
  split; [split|].
  - now rewrite length_map.
  - apply frames_shape; auto. lia.
  - apply Forall2_map_self. eapply Forall_impl; [|exact Hrows].
    intros image Himage. apply Forall_forall. intros r Hr.
    now apply frame_result_rows.
Qed.

Lemma call_output_shape_witness :
  exists out,
    call layer300 tensor_pair = Ok out /\
    has_shape3 1 200 6 out /\
    Forall2
      (fun image frame =>
         Forall (fun r => r = zero_row \/ detection_of layer300 2 image r)
                frame)
      (entries tensor_pair) out.
Proof.
  apply (call_output_shape layer300 2 tensor_pair).
  - unfold valid_config, layer300. cbn -[Rdiv]. repeat split; try lra; lia.
  - repeat split; repeat constructor.
  - lia.
  - simpl. lia.
Defined.

(** ** Shape errors *)

(** C8, as the code has it: the layer has no configured number of classes,
    it reads it from the input.  [call] raises, and returns nothing, when
    the last axis has at most twelve entries: fewer than twelve are refused
    by the slices of line 124, exactly twelve by the class range of line
    159.  With a valid configuration an input with an image and a last axis
    of at least fourteen entries is decoded, every image filtered for
    [shape2 - 12] classes. *)
Theorem call_reads_class_count (self : DecodeDetections) (y_pred : Tensor3) :
  valid_config self ->
  ((shape2 y_pred <= 12)%nat -> exists e, call self y_pred = Raise e) /\
  ((14 <= shape2 y_pred)%nat -> entries y_pred <> [] ->
   exists out,
     call self y_pred = Ok out /\
     Forall2
       (fun image frame =>
          filter_predictions self (shape2 y_pred - 12)
            (map (decode_box self) image) = Ok frame)
       (entries y_pred) out).
Proof.
  intros (_ & Hiou & Hk & Hmax).
  split.
  - intros Hd. destruct (Nat.eq_dec (shape2 y_pred) 12) as [E|E].
    + exists InvalidArgumentError. unfold call. rewrite E. reflexivity.
    + exists ValueError. unfold call.
      now replace (shape2 y_pred <? 12) with true
        by (symmetry; apply Nat.ltb_lt; lia).
  - intros Hd Hne. eexists. split; [apply call_frames; auto; lia|].
    apply Forall2_map_self, Forall_forall. intros image _.
    apply filter_predictions_frame; auto; lia.
Qed.

Lemma call_reads_class_count_witness :
  ((14 <= 12)%nat -> exists e, call layer300 tensor_pair = Raise e) /\
  ((14 <= 14)%nat -> entries tensor_pair <> [] ->
   exists out,
     call layer300 tensor_pair = Ok out /\
     Forall2
       (fun image frame =>
          filter_predictions layer300 (14 - 12)
            (map (decode_box layer300) image) = Ok frame)
       (entries tensor_pair) out).
Proof.
  apply (call_reads_class_count layer300 tensor_pair).
  unfold valid_config, layer300. cbn -[Rdiv]. repeat split; try lra; lia.
Defined.

(** C8 fails as stated: no number of classes is configured in the layer,
    [layer300] decodes inputs whose last axes differ. *)
Lemma call_has_no_configured_class_count :
  ~ exists n_classes : nat,
      forall y_pred : Tensor3,
        well_shaped y_pred ->
        shape2 y_pred <> (n_classes + 12)%nat ->
        exists e, call layer300 y_pred = Raise e.
Proof.
  intros [n H].
  assert (Hok : forall t, (14 <= shape2 t)%nat -> entries t <> [] ->
                  ~ exists e, call layer300 t = Raise e).
  { intros t Ht Hne [e He].
    destruct layer300_valid as (_ & Hiou & Hk & Hmax).
    rewrite call_frames in He by (auto; lia). discriminate. }
  destruct (Nat.eq_dec n 2) as [->|Hn].
  - apply (Hok tensor15); [simpl; lia | discriminate |].
    apply H; [repeat split; repeat constructor | simpl; lia].
  - apply (Hok tensor14); [simpl; lia | discriminate |].
    apply H; [repeat split; repeat constructor | simpl; lia].
Qed.

(** ** Thresholding *)

Lemma confidence_zero_row : confidence zero_row = 0.
Proof. reflexivity. Qed.

Lemma class_id_zero_row : class_id zero_row = 0.
Proof. reflexivity. Qed.

Lemma class_detections_class (self : DecodeDetections)
    (batch_item : list (list R)) (index : nat) (r : list R) :
  In r (class_detections self batch_item index) ->
  class_id r = INR index /\ confidence r > confidence_thresh self.
Proof.
  intros Hr. apply class_detections_In, confident_rows_In in Hr.
  destruct Hr as [Hr Hc]. split; auto.
  apply single_class_rows_In in Hr as (box & _ & ->). reflexivity.
Qed.



Lemma StronglySorted_FOP {A : Type} (P : A -> A -> Prop) (l : list A) :
  StronglySorted P l -> ForallOrdPairs P l.
Proof.
  induction 1; constructor; auto.
Qed.

Lemma FOP_app_cross {A : Type} (P : A -> A -> Prop) (l1 l2 : list A) :
  ForallOrdPairs P (l1 ++ l2) ->
  forall a b, In a l1 -> In b l2 -> P a b.
Proof.
  induction l1 as [|x l1 IH]; simpl; intros H a b Ha Hb; [contradiction|].
  inversion H as [|? ? Hx Hl]; subst. destruct Ha as [<-|Ha].
  - rewrite Forall_forall in Hx. apply Hx, in_or_app. now right.
  - now apply IH.
Qed.

Lemma ranked_sorted (self : DecodeDetections) (fp : list (list R)) :
  ForallOrdPairs conf_desc (ranked self fp).
Proof.
  apply StronglySorted_FOP. unfold ranked. apply gather_argsort_sorted.
Qed.

Lemma frame_result_nonneg (self : DecodeDetections) (n_classes : nat)
    (batch_item : list (list R)) (r : list R) :
  0 <= confidence_thresh self ->
  In r (frame_result self n_classes batch_item) -> 0 <= confidence r.
Proof.
  intros Ht Hr. apply frame_result_In in Hr as [->|(c & _ & Hr)].
  - rewrite confidence_zero_row. lra.
  - apply class_detections_class in Hr as [_ Hr]. lra.
Qed.

Lemma FOP_filter {A : Type} (P : A -> A -> Prop) (f : A -> bool)
    (l : list A) :
  ForallOrdPairs P l -> ForallOrdPairs P (filter f l).
Proof.
  induction 1 as [|a l Ha _ IH]; simpl; [constructor|].
  destruct (f a); auto. constructor; auto.
  apply Forall_forall. intros b Hb. apply filter_In in Hb as [Hb _].
  rewrite Forall_forall in Ha. now apply Ha.
Qed.

(** A candidate the greedy selection leaves out overlaps a box emitted
    before it, unless the selection is full. *)
Lemma greedy_nms_complete {A : Type} (overlaps : A -> A -> bool)
    (P : A -> A -> Prop) (n : nat) (l : list A) (x : A) :
  ForallOrdPairs P l -> In x l ->
  In x (greedy_nms overlaps n l) \/
  length (greedy_nms overlaps n l) = n \/
  exists y, In y (greedy_nms overlaps n l) /\ overlaps x y = true /\ P y x.
Proof.
  revert l. induction n as [|n IH]; intros l Hl Hx.
  - right. left. reflexivity.
  - destruct l as [|c rest]; [contradiction|].
    inversion Hl as [|? ? Hc Hrest]; subst. simpl.
    destruct Hx as [<-|Hx]; [left; now left|].
    destruct (overlaps x c) eqn:E.
    + right. right. exists c. rewrite Forall_forall in Hc.
      split; [now left|]. split; [exact E|]. now apply Hc.
    + assert (Hin : In x (filter (fun y => negb (overlaps y c)) rest))
        by (apply filter_In; now rewrite E).
      destruct (IH _ (FOP_filter P _ rest Hrest) Hin)
        as [H|[H|(y & Hy & Hov & Hp)]].
      * left. now right.
      * right. left. now rewrite H.
      * right. right. exists y. split; [now right|]. now split.
Qed.

(** A confident candidate is in the block of its class, or the block is
    full, or a row of the block of at least its confidence overlaps it. *)
Lemma class_block_complete (self : DecodeDetections)
    (batch_item : list (list R)) (index : nat) (r : list R) :
  0 <= confidence_thresh self ->
  In r (confident_rows self batch_item index) ->
  In r (class_block self batch_item index) \/
  ~ In zero_row (class_block self batch_item index) \/
  exists d, In d (class_block self batch_item index) /\
            confidence r <= confidence d /\
            IOU (nms_box r) (nms_box d) > iou_threshold self.
Proof.
  intros Ht Hr.
  set (sc := confident_rows self batch_item index) in *.
  destruct (In_nth sc r [] Hr) as (i & Hi & Hnth).
  set (order := argsort_desc (map confidence sc)).
  assert (Hin : In i order).
  { apply (Permutation_in _ (Permutation_sym (argsort_desc_perm _))).
    apply in_seq. rewrite length_map. lia. }
  assert (Hsorted : ForallOrdPairs
            (fun a b => confidence (nth b sc []) <= confidence (nth a sc []))
            order).
  { apply StronglySorted_FOP.
    apply (StronglySorted_map (fun k => nth k sc []) conf_desc).
    apply gather_argsort_sorted. }
  destruct (greedy_nms_complete
              (iou_exceeds (map nms_box sc) (iou_threshold self)) _
              (Z.to_nat (nms_max_output_size self)) order i Hsorted Hin)
    as [H|[H|(j & Hj & Hov & Hle)]].
  - left. apply in_or_app. left. unfold class_detections, gather.
    fold sc. fold order. rewrite <- Hnth.
    exact (in_map (fun k => nth k sc []) _ _ H).
  - right. left. unfold class_block. intros Hz.
    assert (Hlen : length (class_detections self batch_item index) =
                   Z.to_nat (nms_max_output_size self)).
    { unfold class_detections, gather. fold sc. fold order.
      now rewrite length_map. }
    rewrite Hlen, Nat.sub_diag in Hz. simpl in Hz. rewrite app_nil_r in Hz.
    apply class_detections_class in Hz as [_ Hz].
    rewrite confidence_zero_row in Hz. lra.
  - right. right. exists (nth j sc []).
    assert (Hjlen : (j < length sc)%nat).
    { apply greedy_nms_In, argsort_desc_In in Hj.
      now rewrite length_map in Hj. }
    split; [|split].
    + apply in_or_app. left. unfold class_detections, gather.
      fold sc. fold order.
      exact (in_map (fun k => nth k sc []) _ _ Hj).
    + now rewrite <- Hnth.
    + unfold iou_exceeds in Hov. apply Rgtb_true in Hov.
      rewrite !(nth_indep _ [] (nms_box [])) in Hov
        by (now rewrite length_map).
      rewrite !map_nth, Hnth in Hov. exact Hov.
Qed.

Lemma class_detections_head (self : DecodeDetections)
    (batch_item : list (list R)) (index : nat) :
  (0 < nms_max_output_size self)%Z ->
  confident_rows self batch_item index <> [] ->
  exists d rest,
    class_detections self batch_item index = d :: rest /\
    forall r, In r (confident_rows self batch_item index) ->
      confidence r <= confidence d.
Proof.
  intros Hmax Hne. unfold class_detections.
  set (sc := confident_rows self batch_item index) in *.
  pose proof (gather_argsort_sorted sc) as Hsorted.
  pose proof (gather_argsort_perm [] sc (map confidence sc)
                (length_map confidence sc)) as Hperm.
  destruct (argsort_desc (map confidence sc)) as [|i0 order] eqn:E.
  - apply Permutation_nil in Hperm. simpl in Hperm. congruence.
  - destruct (Z.to_nat (nms_max_output_size self)) as [|m] eqn:Em; [lia|].
    simpl. eexists. eexists. split; [reflexivity|].
    intros r Hr. apply (Permutation_in _ (Permutation_sym Hperm)) in Hr.
    simpl in Hsorted. inversion Hsorted as [|? ? _ Hall]; subst.
    destruct Hr as [<-|Hr]; [lra|].
    rewrite Forall_forall in Hall. now apply Hall.
Qed.

Lemma frame_result_head (self : DecodeDetections) (n_classes : nat)
    (batch_item : list (list R)) :
  (0 < top_k self)%Z ->
  exists top rest,
    frame_result self n_classes batch_item = top :: rest /\
    forall r, In r (all_blocks self n_classes batch_item) ->
      confidence r <= confidence top.
Proof.
  intros Hk. unfold frame_result.
  pose proof (ranked_sorted self (all_blocks self n_classes batch_item))
    as Hsorted.
  pose proof (ranked_perm self (all_blocks self n_classes batch_item))
    as Hperm.
  pose proof (padded_predictions_length self
                (all_blocks self n_classes batch_item)) as Hlen.
  rewrite <- (Permutation_length Hperm) in Hlen.
  destruct (ranked self (all_blocks self n_classes batch_item))
    as [|top rest]; [simpl in Hlen; lia|].
  destruct (Z.to_nat (top_k self)) as [|m] eqn:Em; [lia|].
  simpl. eexists. eexists. split; [reflexivity|].
  intros r Hr.
  assert (Hin : In r (top :: rest)).
  { apply (Permutation_in _ (Permutation_sym Hperm)).
    unfold padded_predictions. apply in_or_app. now left. }
  inversion Hsorted as [|? ? Hall _]; subst.
  destruct Hin as [<-|Hin]; [lra|].
  rewrite Forall_forall in Hall. now apply Hall.
Qed.

Lemma class_block_incl (self : DecodeDetections) (n_classes : nat)
    (batch_item : list (list R)) (index : nat) (r : list R) :
  In index (class_range n_classes) ->
  In r (class_detections self batch_item index) ->
  In r (all_blocks self n_classes batch_item).
Proof.
  intros Hc Hr. unfold all_blocks. apply in_concat.
  exists (class_block self batch_item index). split.
  - apply in_map_iff. now exists index.
  - unfold class_block. apply in_or_app. now left.
Qed.

(** The first row of a frame is at least as confident as every confident
    candidate of the image. *)
Lemma frame_best (self : DecodeDetections) (n_classes : nat)
    (batch_item : list (list R)) :
  (0 < top_k self)%Z -> (0 < nms_max_output_size self)%Z ->
  exists top rest,
    frame_result self n_classes batch_item = top :: rest /\
    forall index r, (1 <= index < n_classes)%nat ->
      In r (confident_rows self batch_item index) ->
      confidence r <= confidence top.
Proof.
  intros Hk Hmax.
  destruct (frame_result_head self n_classes batch_item Hk)
    as (top & rest & Hframe & Htop).
  exists top, rest. split; [exact Hframe|].
  intros c r Hc Hr.
  destruct (class_detections_head self batch_item c Hmax)
    as (d & ds & Hd & Hmaxd).
  { intros E. rewrite E in Hr. contradiction. }
  apply Rle_trans with (confidence d); [now apply Hmaxd|].
  apply Htop. apply (class_block_incl self n_classes batch_item c).
  - now apply class_range_In.
  - rewrite Hd. now left.
Qed.

(** The candidate row of a box of the image. *)
Lemma candidate_row (self : DecodeDetections) (n_classes index : nat)
    (image : list (list R)) (v : list R) :
  length v = (n_classes + 12)%nat -> (index < n_classes)%nat ->
  In v image ->
  exists r,
    In r (single_class_rows (map (decode_box self) image) index) /\
    confidence r = nth index v 0.
Proof.
  intros Hlen Hi Hv.
  exists ([INR index; nth index (decode_box self v) 0] ++
          take_last 4 (decode_box self v)).
  split.
  - unfold single_class_rows. rewrite map_map.
    apply (in_map (fun x => [INR index; nth index (decode_box self x) 0] ++
                            take_last 4 (decode_box self x)) _ _ Hv).
  - rewrite (decoded_row self n_classes) by auto. reflexivity.
Qed.

(** C3. Thresholding keeps exactly the candidates whose confidence is
    strictly above [confidence_thresh].  For every image of a valid batch
    and every class of [1 .. n_classes - 1], the rows of the block
    [filter_single_class] returns are zero rows or candidates above the
    threshold, and a candidate above the threshold is in the block unless
    the block is full or a row of the block of at least its confidence
    overlaps it.  Hence a row of the frame with a positive confidence has a
    confidence above the threshold; an image none of whose boxes is above
    the threshold for any class yields zero rows only; and when a box is
    above the threshold, the first row of the frame is above it too, with a
    confidence at least the score of the box. *)
Theorem thresholding_strict (self : DecodeDetections) (n_classes : nat)
    (y_pred : Tensor3) :
  valid_config self -> valid_input n_classes y_pred ->
  (2 <= n_classes)%nat -> (1 <= shape0 y_pred)%nat ->
  exists out,
    call self y_pred = Ok out /\
    Forall2
      (fun image frame =>
         let batch_item := map (decode_box self) image in
         (forall index, (1 <= index < n_classes)%nat ->
            exists block,
              filter_single_class self batch_item index = Ok block /\
              (forall r, In r block ->
                 r = zero_row \/
                 (In r (single_class_rows batch_item index) /\
                  confidence r > confidence_thresh self)) /\
              (forall r, In r (single_class_rows batch_item index) ->
                 confidence r > confidence_thresh self ->
                 In r block \/ ~ In zero_row block \/
                 exists d, In d block /\ confidence r <= confidence d /\
                           IOU (nms_box r) (nms_box d) > iou_threshold self))
         /\
         (forall r, In r frame -> confidence r > 0 ->
            confidence r > confidence_thresh self) /\
         ((forall v index, In v image -> (1 <= index < n_classes)%nat ->
             ~ nth index v 0 > confidence_thresh self) ->
          frame = repeat zero_row (Z.to_nat (top_k self))) /\
         (forall v index, In v image -> (1 <= index < n_classes)%nat ->
            nth index v 0 > confidence_thresh self ->
            exists top,
              nth_error frame 0 = Some top /\
              confidence top > confidence_thresh self /\
              nth index v 0 <= confidence top))
      (entries y_pred) out.
Proof.
  intros Hcfg Hin Hn Hbatch.
  eexists. split; [now apply (call_spec self n_classes)|].
  pose proof (valid_input_rows _ _ Hin) as Hrows.
  destruct Hcfg as ((Ht & _) & Hiou & Hk & Hmax).
  apply Forall2_map_self. eapply Forall_impl; [|exact Hrows].
  intros image Himage. cbv zeta.
  set (item := map (decode_box self) image).
  split; [|split; [|split]].
  - intros index Hi. eexists.
    split; [now apply filter_single_class_block|]. split.
    + intros r Hr. apply class_block_In in Hr as [->|Hr]; auto.
      right. now apply class_detections_In, confident_rows_In in Hr.
    + intros r Hr Hconf. apply class_block_complete; auto.
      now apply confident_rows_In.
  - intros r Hr Hpos.
    apply frame_result_rows in Hr as [->|(c & v & _ & _ & Hc & _)]; auto.
    rewrite confidence_zero_row in Hpos. lra.
  - intros Hnone.
    rewrite <- (frame_result_length self n_classes item) by lia.
    apply Forall_eq_repeat. apply Forall_forall. intros r Hr.
    apply frame_result_rows in Hr as [->|(c & v & Hc & Hv & Hconf & ->)];
      auto.
    exfalso. apply (Hnone v c Hv Hc). exact Hconf.
  - intros v index Hv Hi Hconf.
    rewrite Forall_forall in Himage.
    destruct (candidate_row self n_classes index image v)
      as (r & Hr & Hscore); auto; [lia|].
    destruct (frame_best self n_classes item Hk Hmax)
      as (top & rest & Hframe & Hbest).
    assert (Hle : confidence r <= confidence top).
    { apply (Hbest index r Hi). apply confident_rows_In. split; auto.
      rewrite Hscore. exact Hconf. }
    exists top. rewrite Hframe. split; [reflexivity|].
    rewrite Hscore in Hle. split; lra.
Qed.

Lemma thresholding_strict_witness :
  exists out,
    call layer300 tensor_pair = Ok out /\
    Forall2
      (fun image frame =>
         let batch_item := map (decode_box layer300) image in
         (forall index, (1 <= index < 2)%nat ->
            exists block,
              filter_single_class layer300 batch_item index = Ok block /\
              (forall r, In r block ->
                 r = zero_row \/
                 (In r (single_class_rows batch_item index) /\
                  confidence r > confidence_thresh layer300)) /\
              (forall r, In r (single_class_rows batch_item index) ->
                 confidence r > confidence_thresh layer300 ->
                 In r block \/ ~ In zero_row block \/
                 exists d, In d block /\ confidence r <= confidence d /\
                           IOU (nms_box r) (nms_box d)
                           > iou_threshold layer300))
         /\
         (forall r, In r frame -> confidence r > 0 ->
            confidence r > confidence_thresh layer300) /\
         ((forall v index, In v image -> (1 <= index < 2)%nat ->
             ~ nth index v 0 > confidence_thresh layer300) ->
          frame = repeat zero_row (Z.to_nat (top_k layer300))) /\
         (forall v index, In v image -> (1 <= index < 2)%nat ->
            nth index v 0 > confidence_thresh layer300 ->
            exists top,
              nth_error frame 0 = Some top /\
              confidence top > confidence_thresh layer300 /\
              nth index v 0 <= confidence top))
      (entries tensor_pair) out.
Proof.
  apply (thresholding_strict layer300 2 tensor_pair).
  - unfold valid_config, layer300. cbn -[Rdiv]. repeat split; try lra; lia.
  - repeat split; repeat constructor.
  - lia.
  - simpl. lia.
Defined.

(** ** Class blocks *)



(** ** Top-k *)

(** C6. For each image of a valid batch with at least one class beside the
    background, the top-k stage takes the blocks of the [n_classes - 1]
    classes one after the other, pads them with zero rows up to [top_k]
    rows, and returns [top_k] of these rows: none of the rows left out has a
    higher confidence than a row returned, confidences do not increase along
    the frame, and no row of non-zero confidence follows a row of zero
    confidence. *)
Theorem top_k_stage_sorted (self : DecodeDetections) (n_classes : nat)
    (y_pred : Tensor3) :
  valid_config self -> valid_input n_classes y_pred ->
  (2 <= n_classes)%nat -> (1 <= shape0 y_pred)%nat ->
  exists out,
    call self y_pred = Ok out /\
    Forall2
      (fun image frame =>
         exists blocks rest,
           Forall2
             (fun index block =>
                filter_single_class self (map (decode_box self) image) index
                = Ok block)
             (class_range n_classes) blocks /\
           length blocks = (n_classes - 1)%nat /\
           filtered_predictions_of self n_classes
             (map (decode_box self) image) = Ok (concat blocks) /\
           top_k_stage self (concat blocks) = Ok frame /\
           length frame = Z.to_nat (top_k self) /\
           Permutation (frame ++ rest)
             (concat blocks ++
              repeat zero_row
                (Z.to_nat (top_k self) - length (concat blocks))) /\
           (forall a b, In a frame -> In b rest ->
              confidence b <= confidence a) /\
           (forall i j a b, (i < j)%nat ->
              nth_error frame i = Some a -> nth_error frame j = Some b ->
              confidence b <= confidence a) /\
           (forall i j a b, (i < j)%nat ->
              nth_error frame i = Some a -> nth_error frame j = Some b ->
              confidence a = 0 -> confidence b = 0))
      (entries y_pred) out.
Proof.
  intros Hcfg Hin Hn Hbatch.
  eexists. split; [now apply (call_spec self n_classes)|].
  destruct Hcfg as ((Ht & _) & Hiou & Hk & Hmax).
  apply Forall2_map_self, Forall_forall. intros image _.
  set (item := map (decode_box self) image).
  exists (map (class_block self item) (class_range n_classes)).
  exists (skipn (Z.to_nat (top_k self))
            (ranked self (all_blocks self n_classes item))).
  fold (all_blocks self n_classes item).
  assert (Hsorted : ForallOrdPairs conf_desc
                      (frame_result self n_classes item)).
  { apply FOP_firstn, ranked_sorted. }
  split; [|split; [|split; [|split; [|split; [|split; [|split; [|split]]]]]]].
  - apply Forall2_map_self, Forall_forall. intros c _.
    now apply filter_single_class_block.
  - rewrite length_map. unfold class_range. apply length_seq.
  - now apply filtered_predictions_of_blocks.
  - apply top_k_stage_ranked. lia.
  - apply frame_result_length. lia.
  - unfold frame_result. rewrite firstn_skipn.
    rewrite ranked_perm. unfold padded_predictions.
    apply Permutation_app_head.
    replace (Z.to_nat (top_k self -
                       Z.of_nat (length (all_blocks self n_classes item))))
      with (Z.to_nat (top_k self) -
            length (all_blocks self n_classes item))%nat by lia.
    reflexivity.
  - intros a b Ha Hb.
    apply (FOP_app_cross conf_desc (frame_result self n_classes item)
             (skipn (Z.to_nat (top_k self))
                (ranked self (all_blocks self n_classes item)))); auto.
    unfold frame_result. rewrite firstn_skipn. apply ranked_sorted.
  - intros i j a b Hij Hi Hj. eapply (FOP_nth conf_desc); eauto.
  - intros i j a b Hij Hi Hj Ha.
    assert (Hle : confidence b <= confidence a)
      by (eapply (FOP_nth conf_desc); eauto).
    apply nth_error_In in Hj. apply (frame_result_nonneg self) in Hj; auto.
    lra.
Qed.

Lemma top_k_stage_sorted_witness :
  exists out,
    call layer300 tensor_pair = Ok out /\
    Forall2
      (fun image frame =>
         exists blocks rest,
           Forall2
             (fun index block =>
                filter_single_class layer300
                  (map (decode_box layer300) image) index
                = Ok block)
             (class_range 2) blocks /\
           length blocks = (2 - 1)%nat /\
           filtered_predictions_of layer300 2
             (map (decode_box layer300) image) = Ok (concat blocks) /\
           top_k_stage layer300 (concat blocks) = Ok frame /\
           length frame = Z.to_nat (top_k layer300) /\
           Permutation (frame ++ rest)
             (concat blocks ++
              repeat zero_row
                (Z.to_nat (top_k layer300) - length (concat blocks))) /\
           (forall a b, In a frame -> In b rest ->
              confidence b <= confidence a) /\
           (forall i j a b, (i < j)%nat ->
              nth_error frame i = Some a -> nth_error frame j = Some b ->
              confidence b <= confidence a) /\
           (forall i j a b, (i < j)%nat ->
              nth_error frame i = Some a -> nth_error frame j = Some b ->
              confidence a = 0 -> confidence b = 0))
      (entries tensor_pair) out.
Proof.
  apply (top_k_stage_sorted layer300 2 tensor_pair).
  - unfold valid_config, layer300. cbn -[Rdiv]. repeat split; try lra; lia.
  - repeat split; repeat constructor.
  - lia.
  - simpl. lia.
Defined.

(** ** Suppression in the output *)

Lemma compatible_sym (self : DecodeDetections) (a b : list R) :
  compatible self a b -> compatible self b a.
Proof.
  unfold compatible. intros H Hb Ha Hc. rewrite IOU_sym. now apply H.
Qed.

Lemma compatible_zero_r (self : DecodeDetections) (a : list R) :
  compatible self a zero_row.
Proof. intros _ H. now contradiction H. Qed.

Lemma FOP_zero_rows (self : DecodeDetections) (n : nat) :
  ForallOrdPairs (compatible self) (repeat zero_row n).
Proof.
  induction n; simpl; constructor; auto.
  apply Forall_forall. intros b Hb. apply repeat_spec in Hb. subst.
  apply compatible_zero_r.
Qed.

Lemma FOP_pad_zero_rows (self : DecodeDetections) (l : list (list R))
    (n : nat) :
  ForallOrdPairs (compatible self) l ->
  ForallOrdPairs (compatible self) (l ++ repeat zero_row n).
Proof.
  intros H. apply FOP_app; auto using FOP_zero_rows.
  intros a b _ Hb. apply repeat_spec in Hb. subst. apply compatible_zero_r.
Qed.

Lemma class_block_compatible (self : DecodeDetections)
    (batch_item : list (list R)) (index : nat) :
  ForallOrdPairs (compatible self) (class_block self batch_item index).
Proof.
  unfold class_block. apply FOP_pad_zero_rows.
  pose proof (class_detections_pairs self batch_item index) as H.
  induction H as [|a l Ha _ IH]; constructor; auto.
  eapply Forall_impl; [|exact Ha]. intros b Hb _ _ _. exact Hb.
Qed.

Lemma blocks_compatible (self : DecodeDetections)
    (batch_item : list (list R)) (indices : list nat) :
  NoDup indices ->
  ForallOrdPairs (compatible self)
    (concat (map (class_block self batch_item) indices)).
Proof.
  induction 1 as [|c cs Hc _ IH]; simpl; [constructor|].
  apply FOP_app; auto using class_block_compatible.
  intros a b Ha Hb Hna Hnb Hid.
  apply class_block_In in Ha as [->|Ha]; [now contradiction Hna|].
  apply in_concat in Hb as (block & Hblock & Hb).
  apply in_map_iff in Hblock as (c' & <- & Hc').
  apply class_block_In in Hb as [->|Hb]; [now contradiction Hnb|].
  apply class_detections_class in Ha as [Ha _].
  apply class_detections_class in Hb as [Hb _].
  rewrite Ha, Hb in Hid. apply INR_eq in Hid. subst. contradiction.
Qed.

Lemma frame_result_compatible (self : DecodeDetections) (n_classes : nat)
    (batch_item : list (list R)) :
  ForallOrdPairs (compatible self) (frame_result self n_classes batch_item).
Proof.
  unfold frame_result. apply FOP_firstn.
  apply (FOP_perm _ (compatible_sym self) _ _
           (Permutation_sym (ranked_perm self _))).
  unfold padded_predictions. apply FOP_pad_zero_rows.
  apply blocks_compatible. apply seq_NoDup.
Qed.

(** On boxes of positive width and height the IoU of the kernel is the IoU
    of the specification. *)
Lemma kernel_iou_proper (a b : list R) :
  length a = 6%nat -> length b = 6%nat ->
  proper_box a -> proper_box b ->
  IOU (nms_box a) (nms_box b) = spec_iou a b.
Proof.
  intros Ha Hb [Hax Hay] [Hbx Hby].
  destruct a as [|a0 [|a1 [|ax1 [|ay1 [|ax2 [|ay2 [|]]]]]]]; try discriminate.
  destruct b as [|b0 [|b1 [|bx1 [|by1 [|bx2 [|by2 [|]]]]]]]; try discriminate.
  unfold proper_box, row_xmin, row_xmax, row_ymin, row_ymax in *.
  cbn [nth] in Hax, Hay, Hbx, Hby.
  unfold IOU, spec_iou, degenerate, corner_area, box_area, intersection_area,
    nms_box, neg_index, row_xmin, row_xmax, row_ymin, row_ymax.
  cbn [nth length Nat.sub].
  rewrite (Rmax_right ay1 ay2), (Rmin_left ay1 ay2) by lra.
  rewrite (Rmax_right ax1 ax2), (Rmin_left ax1 ax2) by lra.
  rewrite (Rmax_right by1 by2), (Rmin_left by1 by2) by lra.
  rewrite (Rmax_right bx1 bx2), (Rmin_left bx1 bx2) by lra.
  assert (Haa : 0 < (ay2 - ay1) * (ax2 - ax1))
    by (apply Rmult_lt_0_compat; lra).
  assert (Hba : 0 < (by2 - by1) * (bx2 - bx1))
    by (apply Rmult_lt_0_compat; lra).
  rewrite (proj2 (Rleb_false ((ay2 - ay1) * (ax2 - ax1)) 0)) by lra.
  rewrite (proj2 (Rleb_false ((by2 - by1) * (bx2 - bx1)) 0)) by lra.
  rewrite (proj2 (Rleb_false (ax2 - ax1) 0)) by lra.
  rewrite (proj2 (Rleb_false (ay2 - ay1) 0)) by lra.
  rewrite (proj2 (Rleb_false (bx2 - bx1) 0)) by lra.
  rewrite (proj2 (Rleb_false (by2 - by1) 0)) by lra.
  cbn [orb].
  rewrite (Rmult_comm (ax2 - ax1) (ay2 - ay1)),
    (Rmult_comm (bx2 - bx1) (by2 - by1)),
    (Rmult_comm (Rmax (Rmin ax2 bx2 - Rmax ax1 bx1) 0)).
  reflexivity.
Qed.

(** Below the threshold for the kernel, below it for the specification. *)
Lemma spec_iou_below (thr : R) (a b : list R) :
  0 <= thr -> length a = 6%nat -> length b = 6%nat ->
  IOU (nms_box a) (nms_box b) <= thr -> spec_iou a b <= thr.
Proof.
  intros Hthr Ha Hb H.
  destruct (degenerate a || degenerate b) eqn:E.
  - unfold spec_iou. now rewrite E.
  - apply orb_false_iff in E as [Ea Eb]. unfold degenerate in Ea, Eb.
    apply orb_false_iff in Ea as [Eax Eay].
    apply orb_false_iff in Eb as [Ebx Eby].
    apply Rleb_false in Eax, Eay, Ebx, Eby.
    rewrite <- kernel_iou_proper; auto; split; lra.
Qed.

Lemma frame_row_columns (self : DecodeDetections) (n_classes : nat)
    (image : list (list R)) (r : list R) :
  Forall (fun v => length v = (n_classes + 12)%nat) image ->
  In r (frame_result self n_classes (map (decode_box self) image)) ->
  length r = 6%nat.
Proof.
  intros Hshape Hr. apply frame_result_rows in Hr as [->|Hr]; auto.
  eapply detection_of_length; eauto.
Qed.

(** C4, as the code has it.  [perform_nms] is the greedy algorithm: the
    confident candidates are visited by decreasing confidence, the first
    remaining one is emitted and the remaining ones whose IoU with it
    exceeds [iou_threshold] are discarded, until [nms_max_output_size] boxes
    are emitted.  The IoU is the one of the suppression kernel, which puts
    the corners of a box in order first; on boxes of positive width and
    height it is the IoU of the specification.  Hence in a frame of the
    output two rows of one class, neither a zero row, have an IoU of at
    most [iou_threshold], for the kernel and for the specification. *)
Theorem nms_is_greedy (self : DecodeDetections) (n_classes : nat)
    (y_pred : Tensor3) :
  valid_config self -> valid_input n_classes y_pred ->
  (2 <= n_classes)%nat -> (1 <= shape0 y_pred)%nat ->
  (forall single_class,
     let candidates := argsort_desc (map confidence single_class) in
     Permutation (gather [] single_class candidates) single_class /\
     StronglySorted conf_desc (gather [] single_class candidates) /\
     perform_nms self single_class =
     Ok (gather [] single_class
           (greedy_nms
              (iou_exceeds (map nms_box single_class) (iou_threshold self))
              (Z.to_nat (nms_max_output_size self)) candidates))) /\
  (forall a b, length a = 6%nat -> length b = 6%nat ->
     proper_box a -> proper_box b ->
     IOU (nms_box a) (nms_box b) = spec_iou a b) /\
  exists out,
    call self y_pred = Ok out /\
    Forall
      (fun frame =>
         forall i j a b, i <> j ->
           nth_error frame i = Some a -> nth_error frame j = Some b ->
           a <> zero_row -> b <> zero_row -> class_id a = class_id b ->
           IOU (nms_box a) (nms_box b) <= iou_threshold self /\
           spec_iou a b <= iou_threshold self)
      out.
Proof.
  intros Hcfg Hin Hn Hbatch. split; [|split].
  - intros single_class candidates. split; [|split].
    + apply gather_argsort_perm, length_map.
    + apply gather_argsort_sorted.
    + destruct Hcfg as (_ & Hiou & _ & Hmax).
      apply perform_nms_greedy; auto. lia.
  - apply kernel_iou_proper.
  - eexists. split; [now apply (call_spec self n_classes)|].
    pose proof (valid_input_rows _ _ Hin) as Hrows.
    destruct Hcfg as (_ & Hiou & _ & _).
    rewrite Forall_map. eapply Forall_impl; [|exact Hrows].
    intros image Himage i j a b Hij Hi Hj Hna Hnb Hid.
    pose proof (FOP_nth_sym (compatible self) (compatible_sym self) _
                  (frame_result_compatible self n_classes _)
                  i j a b Hij Hi Hj Hna Hnb Hid) as H.
    split; [exact H|].
    apply spec_iou_below; auto; try lra.
    + eapply frame_row_columns; eauto. eapply nth_error_In; eauto.
    + eapply frame_row_columns; eauto. eapply nth_error_In; eauto.
Qed.

Lemma nms_is_greedy_witness :
  (forall single_class,
     let candidates := argsort_desc (map confidence single_class) in
     Permutation (gather [] single_class candidates) single_class /\
     StronglySorted conf_desc (gather [] single_class candidates) /\
     perform_nms layer300 single_class =
     Ok (gather [] single_class
           (greedy_nms
              (iou_exceeds (map nms_box single_class)
                 (iou_threshold layer300))
              (Z.to_nat (nms_max_output_size layer300)) candidates))) /\
  (forall a b, length a = 6%nat -> length b = 6%nat ->
     proper_box a -> proper_box b ->
     IOU (nms_box a) (nms_box b) = spec_iou a b) /\
  exists out,
    call layer300 tensor_pair = Ok out /\
    Forall
      (fun frame =>
         forall i j a b, i <> j ->
           nth_error frame i = Some a -> nth_error frame j = Some b ->
           a <> zero_row -> b <> zero_row -> class_id a = class_id b ->
           IOU (nms_box a) (nms_box b) <= iou_threshold layer300 /\
           spec_iou a b <= iou_threshold layer300)
      out.
Proof.
  apply (nms_is_greedy layer300 2 tensor_pair).
  - unfold valid_config, layer300. cbn -[Rdiv]. repeat split; try lra; lia.
  - repeat split; repeat constructor.
  - lia.
  - simpl. lia.
Defined.

(** ** Worked examples *)

Ltac rdecide :=
  repeat match goal with
  | |- context [Rgtb ?x ?y] =>
      first [ rewrite (proj2 (Rgtb_true x y)) by lra
            | rewrite (proj2 (Rgtb_false x y)) by lra ]
  | |- context [Rleb ?x ?y] =>
      first [ rewrite (proj2 (Rleb_true x y)) by lra
            | rewrite (proj2 (Rleb_false x y)) by lra ]
  | |- context [Rmax ?x ?y] =>
      first [ rewrite (Rmax_left x y) by lra
            | rewrite (Rmax_right x y) by lra ]
  | |- context [Rmin ?x ?y] =>
      first [ rewrite (Rmin_left x y) by lra
            | rewrite (Rmin_right x y) by lra ]
  end.

Ltac rcbn :=
  cbn -[Rdiv IZR Rgtb Rleb Rmax Rmin Rplus Rminus Rmult Ropp Rinv INR].

Ltac nat_eval :=
  repeat match goal with
  | |- context [Pos.to_nat ?p] =>
      let x := eval vm_compute in (Pos.to_nat p) in
      change (Pos.to_nat p) with x
  end.

Ltac evaluate := repeat (progress (rcbn; rdecide; nat_eval)).

(** The kernel's loop and the greedy selection on five candidates, two of
    which overlap an earlier one. *)
Example greedy_on_indices :
  greedy_nms (fun i j => Nat.eqb (i / 2) (j / 2)) 10 [0; 1; 2; 3; 5]%nat
  = [0; 2; 5]%nat /\
  nms_loop (fun i j => Nat.eqb (i / 2) (j / 2)) 2 [0; 1; 2; 3; 5]%nat []
  = [0; 2]%nat.
Proof. split; reflexivity. Qed.

(** Scenario 2: two candidates of one class with an IoU of 0.7 and
    confidences 0.8 and 0.9; the second suppresses the first. *)
Example scenario2_suppression :
  IOU (nms_box [1; 8 / 10; 0; 0; 10; 7]) (nms_box [1; 9 / 10; 0; 0; 10; 10])
  = 7 / 10 /\
  perform_nms layer_small
    [[1; 8 / 10; 0; 0; 10; 7]; [1; 9 / 10; 0; 0; 10; 10]]
  = Ok [[1; 9 / 10; 0; 0; 10; 10]].
Proof.
  assert (H : IOU (nms_box [1; 8 / 10; 0; 0; 10; 7])
                  (nms_box [1; 9 / 10; 0; 0; 10; 10]) = 7 / 10).
  { unfold IOU, box_area, intersection_area, nms_box, neg_index.
    evaluate. field. }
  split; [exact H|].
  unfold perform_nms, non_max_suppression, argsort_desc, layer_small.
  evaluate. unfold iou_exceeds. rcbn. rewrite H.
  evaluate. reflexivity.
Qed.

(** C4 fails as stated: of two candidates of one class over the same area,
    the second with its x corners exchanged, the specification keeps both
    (a box of negative width overlaps nothing) and the code keeps the first
    only (the kernel puts the corners in order and finds an IoU of 1). *)
Lemma nms_suppresses_flipped_box :
  spec_iou [1; 8 / 10; 10; 0; 0; 10] [1; 9 / 10; 0; 0; 10; 10] = 0 /\
  IOU (nms_box [1; 8 / 10; 10; 0; 0; 10]) (nms_box [1; 9 / 10; 0; 0; 10; 10])
  = 1 /\
  spec_nms layer_small rows_flipped = rows_flipped /\
  perform_nms layer_small rows_flipped = Ok [[1; 9 / 10; 0; 0; 10; 10]].
Proof.
  assert (Hs : spec_iou [1; 8 / 10; 10; 0; 0; 10] [1; 9 / 10; 0; 0; 10; 10]
               = 0).
  { unfold spec_iou, degenerate, row_xmin, row_xmax, row_ymin, row_ymax.
    evaluate. reflexivity. }
  assert (Hk : IOU (nms_box [1; 8 / 10; 10; 0; 0; 10])
                   (nms_box [1; 9 / 10; 0; 0; 10; 10]) = 1).
  { unfold IOU, box_area, intersection_area, nms_box, neg_index.
    evaluate. field. }
  split; [exact Hs|]. split; [exact Hk|]. split.
  - unfold spec_nms, rows_flipped, argsort_desc, layer_small.
    evaluate. reflexivity.
  - unfold perform_nms, non_max_suppression, argsort_desc, rows_flipped,
      layer_small.
    evaluate. unfold iou_exceeds. rcbn. rewrite Hk.
    evaluate. reflexivity.
Qed.

Lemma decode_scenario1 :
  decode_box layer_small (raw_vector scenario1)
  = [1 / 10; 9 / 10; 8; 8; 12; 12].
Proof.
  unfold decode_box, decode_corners. cbn [normalize_coords layer_small].
  unfold non_normalized_coords. rewrite scenario1_corners, drop_last_raw.
  reflexivity.
Qed.

(** Scenario 1: one anchor, one positive class with score 0.9; the output is
    the row of the decoded box followed by zero rows. *)
Example scenario1_call :
  call layer_small tensor_scenario1 =
  Ok [[[1; 9 / 10; 8; 8; 12; 12]; zero_row; zero_row]].
Proof.
  unfold call, tensor_scenario1. cbn [shape2 entries Nat.ltb Nat.leb map].
  rewrite decode_scenario1.
  unfold filter_predictions, filtered_predictions_of, class_indices,
    class_range, map_fn, filter_single_class, single_class_rows, take_last,
    threshold_met, perform_nms, non_max_suppression, argsort_desc, pad_rows,
    top_k_stage, pad_and_top_k, top_k_branch, nn_top_k, iou_exceeds,
    layer_small.
  evaluate. replace (1 + 0) with 1 by lra. reflexivity.
Qed.

Lemma decode_scenario1_shifted :
  decode_box layer_small (raw_vector scenario1_shifted)
  = [2 / 10; 8 / 10; 9; 8; 13; 12].
Proof.
  unfold decode_box, decode_corners. cbn [normalize_coords layer_small].
  unfold non_normalized_coords.
  rewrite centroids_to_corners_raw, drop_last_raw.
  unfold spec_corners, scenario1_shifted.
  cbn [scores d_cx d_cy d_w d_h a_cx a_cy a_w a_h v_cx v_cy v_w v_h
       c_xmin c_ymin c_xmax c_ymax app].
  rewrite !Rmult_0_l, exp_0. repeat f_equal; lra.
Qed.

(** Scenario 2 through [call]: two boxes of class 1 with an IoU of 0.6 and
    scores 0.8 and 0.9; the frame holds the better one only. *)
Example scenario2_call :
  call layer_small tensor_pair =
  Ok [[[1; 9 / 10; 8; 8; 12; 12]; zero_row; zero_row]].
Proof.
  assert (H : forall c1 c2,
            IOU (nms_box [c1; 8 / 10; 9; 8; 13; 12])
                (nms_box [c2; 9 / 10; 8; 8; 12; 12]) = 6 / 10).
  { intros c1 c2.
    unfold IOU, box_area, intersection_area, nms_box, neg_index.
    evaluate. field. }
  unfold call, tensor_pair. cbn [shape2 entries Nat.ltb Nat.leb map].
  rewrite decode_scenario1, decode_scenario1_shifted.
  unfold filter_predictions, filtered_predictions_of, class_indices,
    class_range, map_fn, filter_single_class, single_class_rows, take_last,
    threshold_met, perform_nms, non_max_suppression, argsort_desc, pad_rows,
    top_k_stage, pad_and_top_k, top_k_branch, nn_top_k, layer_small.
  evaluate. unfold iou_exceeds. rcbn. rewrite H.
  evaluate. replace (1 + 0) with 1 by lra. reflexivity.
Qed.

(** * Further properties of the layer *)

(** ** Construction, lines 75-103 *)

(** X1. A layer is constructed only with the TensorFlow backend, the
    centroid format and both image dimensions given, also when
    [normalize_coords] is unset, and with a [top_k] and an
    [nms_max_output_size] that fit in 64 bits; it holds the options as they
    were passed. *)
Theorem init_success_conditions (backend : string) (ct iou : R) (k nms : Z)
    (c : string) (nc : bool) (h w : option R) (self : DecodeDetections) :
  init backend ct iou k nms c nc h w = Ok self ->
  backend = "tensorflow"%string /\ c = "centroids"%string /\
  h <> None /\ w <> None /\
  (- 2 ^ 63 <= k < 2 ^ 63)%Z /\ (- 2 ^ 63 <= nms < 2 ^ 63)%Z /\
  confidence_thresh self = ct /\ iou_threshold self = iou /\
  top_k self = k /\ nms_max_output_size self = nms /\
  coords self = c /\ normalize_coords self = nc /\
  img_height self = h /\ img_width self = w.
Proof.
  intros H. apply init_Ok_inv in H.
  destruct H as (Hb & Hc & Hk & Hnms & hv & wv & -> & -> & ->).
  apply fits_int64_spec in Hk, Hnms.
  repeat split; auto; try discriminate; lia.
Qed.

Lemma init_success_conditions_witness :
  "tensorflow"%string = "tensorflow"%string /\
  "centroids"%string = "centroids"%string /\
  Some 300 <> None /\ Some 300 <> None /\
  (- 2 ^ 63 <= 200 < 2 ^ 63)%Z /\ (- 2 ^ 63 <= 400 < 2 ^ 63)%Z /\
  confidence_thresh layer300 = 1 / 100 /\ iou_threshold layer300 = 45 / 100 /\
  top_k layer300 = 200%Z /\ nms_max_output_size layer300 = 400%Z /\
  coords layer300 = "centroids"%string /\ normalize_coords layer300 = true /\
  img_height layer300 = Some 300 /\ img_width layer300 = Some 300.
Proof.
  apply (init_success_conditions "tensorflow" (1 / 100) (45 / 100) 200 400
           "centroids" true (Some 300) (Some 300) layer300).
  reflexivity.
Defined.

(** ** The configuration, lines 271-283 *)

Lemma dict_get_set (d : pydict) (k key : string) (v : pyvalue) :
  dict_get (dict_set d k v) key =
  if String.eqb k key then Some v else dict_get d key.
Proof.
  induction d as [|[k' w] rest IH]; simpl.
  - reflexivity.
  - destruct (String.eqb_spec k' k) as [->|Hk]; simpl.
    + now destruct (String.eqb k key).
    + rewrite IH. destruct (String.eqb_spec k' key) as [->|Hk']; auto.
      destruct (String.eqb_spec k key) as [->|]; [contradiction | auto].
Qed.

Lemma dict_get_fold (items : list (string * pyvalue)) (d : pydict)
    (key : string) :
  dict_get (fold_left (fun d kv => dict_set d (fst kv) (snd kv)) items d) key =
  match assoc_last key items with
  | Some v => Some v
  | None => dict_get d key
  end.
Proof.
  revert d. induction items as [|[k v] rest IH]; intros d; simpl; auto.
  rewrite IH. destruct (assoc_last key rest); auto.
  simpl. rewrite dict_get_set. now destruct (String.eqb k key).
Qed.

Lemma dict_get_of_items (items : list (string * pyvalue)) (key : string) :
  dict_get (dict_of_items items) key = assoc_last key items.
Proof.
  unfold dict_of_items. rewrite dict_get_fold.
  now destruct (assoc_last key items).
Qed.

Lemma assoc_last_app (key : string) (l1 l2 : list (string * pyvalue)) :
  assoc_last key (l1 ++ l2) =
  match assoc_last key l2 with
  | Some v => Some v
  | None => assoc_last key l1
  end.
Proof.
  induction l1 as [|[k v] l1 IH]; simpl.
  - now destruct (assoc_last key l2).
  - rewrite IH. now destruct (assoc_last key l2).
Qed.

Lemma get_config_lookup (self : DecodeDetections) (base_config : pydict)
    (key : string) :
  dict_get (get_config self base_config) key =
  match
    dict_get
      [("confidence_thresh"%string, PyFloat (confidence_thresh self));
       ("iou_threshold"%string, PyFloat (iou_threshold self));
       ("top_k"%string, PyInt (top_k self));
       ("nms_max_output_size"%string, PyInt (nms_max_output_size self));
       ("coords"%string, PyStr (coords self));
       ("normalize_coords"%string, PyBool (normalize_coords self));
       ("img_height"%string, py_optional (img_height self));
       ("img_width"%string, py_optional (img_width self))] key
  with
  | Some v => Some v
  | None => dict_get (dict_of_items base_config) key
  end.
Proof.
  unfold get_config. rewrite dict_get_of_items, assoc_last_app.
  rewrite <- !dict_get_of_items. reflexivity.
Qed.

(** X3. The configuration of a constructed layer returns the arguments of
    the constructor under their names, whatever the base configuration
    holds, also under these names. *)
Theorem get_config_returns_arguments (backend : string) (ct iou : R)
    (k nms : Z) (c : string) (nc : bool) (h w : option R)
    (self : DecodeDetections) (base_config : pydict) :
  init backend ct iou k nms c nc h w = Ok self ->
  let config := get_config self base_config in
  dict_get config "confidence_thresh" = Some (PyFloat ct) /\
  dict_get config "iou_threshold" = Some (PyFloat iou) /\
  dict_get config "top_k" = Some (PyInt k) /\
  dict_get config "nms_max_output_size" = Some (PyInt nms) /\
  dict_get config "coords" = Some (PyStr c) /\
  dict_get config "normalize_coords" = Some (PyBool nc) /\
  dict_get config "img_height" = Some (py_optional h) /\
  dict_get config "img_width" = Some (py_optional w).
Proof.
  intros H. apply init_Ok_inv in H.
  destruct H as (_ & _ & _ & _ & hv & wv & _ & _ & ->).
  cbv zeta. rewrite !get_config_lookup. repeat split; reflexivity.
Qed.

Lemma get_config_returns_arguments_witness :
  let config := get_config layer300 base_config0 in
  dict_get config "confidence_thresh" = Some (PyFloat (1 / 100)) /\
  dict_get config "iou_threshold" = Some (PyFloat (45 / 100)) /\
  dict_get config "top_k" = Some (PyInt 200) /\
  dict_get config "nms_max_output_size" = Some (PyInt 400) /\
  dict_get config "coords" = Some (PyStr "centroids") /\
  dict_get config "normalize_coords" = Some (PyBool true) /\
  dict_get config "img_height" = Some (py_optional (Some 300)) /\
  dict_get config "img_width" = Some (py_optional (Some 300)).
Proof.
  apply (get_config_returns_arguments "tensorflow" (1 / 100) (45 / 100)
           200 400 "centroids" true (Some 300) (Some 300) layer300
           base_config0).
  reflexivity.
Defined.

(** X4. The entries of the base configuration under other names are kept
    as they are. *)
Theorem get_config_keeps_base (self : DecodeDetections) (base_config : pydict)
    (key : string) :
  ~ In key config_keys ->
  dict_get (get_config self base_config) key =
  dict_get (dict_of_items base_config) key.
Proof.
  intros Hkey. rewrite get_config_lookup. unfold config_keys in Hkey.
  cbn [In] in Hkey. cbn [dict_get].
  repeat match goal with
  | |- context [String.eqb ?a key] =>
      destruct (String.eqb_spec a key) as [<-|_];
      [exfalso; apply Hkey; tauto|]
  end.
  reflexivity.
Qed.

Lemma get_config_keeps_base_witness :
  dict_get (get_config layer300 base_config0) "name" =
  dict_get (dict_of_items base_config0) "name".
Proof.
  apply (get_config_keeps_base layer300 base_config0 "name").
  unfold config_keys. simpl.
  intros H; repeat (destruct H as [H|H]; [discriminate|]); exact H.
Defined.

(** ** The announced shape, lines 267-269 *)



(** ** Decoding, lines 124-149 *)

(** X6. Offsets of zero decode to the anchor itself: the corners are those
    of the anchor box, whatever the variances are. *)
Theorem zero_offsets_decode_to_anchor (r : RawBoxRecord) :
  d_cx r = 0 -> d_cy r = 0 -> d_w r = 0 -> d_h r = 0 ->
  centroids_to_corners (raw_vector r) =
  mkCorners (a_cx r - a_w r / 2) (a_cy r - a_h r / 2)
            (a_cx r + a_w r / 2) (a_cy r + a_h r / 2).
Proof.
  intros Hx Hy Hw Hh. rewrite centroids_to_corners_raw. unfold spec_corners.
  rewrite Hx, Hy, Hw, Hh, !Rmult_0_l, exp_0. f_equal; lra.
Qed.

Lemma zero_offsets_decode_to_anchor_witness :
  centroids_to_corners (raw_vector scenario1) =
  mkCorners (10 - 4 / 2) (10 - 4 / 2) (10 + 4 / 2) (10 + 4 / 2).
Proof.
  apply (zero_offsets_decode_to_anchor scenario1); reflexivity.
Defined.

(** X8. [decode_box] keeps the class scores where they are and replaces the
    twelve last entries by four: a record of [n_classes + 12] entries
    becomes one of [n_classes + 4], equal to the input at every class
    index. *)
Theorem decode_box_keeps_scores (self : DecodeDetections) (n_classes : nat)
    (v : list R) :
  length v = (n_classes + 12)%nat ->
  length (decode_box self v) = (n_classes + 4)%nat /\
  forall index, (index < n_classes)%nat ->
    nth index (decode_box self v) 0 = nth index v 0.
Proof.
  intros Hlen. split.
  - rewrite decode_box_length by lia. lia.
  - intros index Hi. unfold decode_box, drop_last.
    rewrite app_nth1 by (rewrite firstn_length_le; lia).
    rewrite nth_firstn.
    replace (index <? length v - 12) with true
      by (symmetry; apply Nat.ltb_lt; lia).
    reflexivity.
Qed.

Lemma decode_box_keeps_scores_witness :
  length (decode_box layer300 (raw_vector scenario1)) = (2 + 4)%nat /\
  forall index, (index < 2)%nat ->
    nth index (decode_box layer300 (raw_vector scenario1)) 0 =
    nth index (raw_vector scenario1) 0.
Proof.
  apply (decode_box_keeps_scores layer300 2 (raw_vector scenario1)).
  reflexivity.
Defined.

(** ** Images without candidates *)

Lemma frame_all_zero (self : DecodeDetections) (n_classes : nat)
    (batch_item : list (list R)) :
  (0 <= top_k self)%Z ->
  (forall index r, In index (class_range n_classes) ->
     ~ In r (class_detections self batch_item index)) ->
  frame_result self n_classes batch_item =
  repeat zero_row (Z.to_nat (top_k self)).
Proof.
  intros Hk Hnone.
  rewrite <- (frame_result_length self n_classes batch_item) by lia.
  apply Forall_eq_repeat, Forall_forall. intros r Hr.
  apply frame_result_In in Hr as [->|(c & Hc & Hr)]; auto.
  now apply Hnone in Hr.
Qed.

(** X10. With a valid configuration and at least one class beside the
    background, an image without boxes gives a frame of [top_k] zero
    rows. *)
Theorem empty_image_gives_zero_rows (self : DecodeDetections)
    (n_classes : nat) :
  valid_config self -> (2 <= n_classes)%nat ->
  filter_predictions self n_classes [] =
  Ok (repeat zero_row (Z.to_nat (top_k self))).
Proof.
  intros (_ & Hiou & Hk & Hmax) Hn.
  rewrite filter_predictions_frame by (auto; lia). f_equal.
  apply frame_all_zero; [lia|]. intros c r Hc Hr.
  apply class_detections_In, confident_rows_In in Hr.
  destruct Hr as [Hr _]. exact Hr.
Qed.

Lemma empty_image_gives_zero_rows_witness :
  filter_predictions layer300 2 [] =
  Ok (repeat zero_row (Z.to_nat (top_k layer300))).
Proof.
  apply (empty_image_gives_zero_rows layer300 2).
  - unfold valid_config, layer300. cbn -[Rdiv]. repeat split; try lra; lia.
  - lia.
Defined.

(** ** Options outside their domain *)

(** X11. With an [nms_max_output_size] below one the constructor passes, but
    the filter of a class without a candidate above the threshold raises:
    its single zero row cannot be padded by a negative amount. *)
Theorem filter_single_class_needs_capacity (self : DecodeDetections)
    (batch_item : list (list R)) (index : nat) :
  (nms_max_output_size self < 1)%Z ->
  (forall box, In box batch_item ->
     nth index box 0 <= confidence_thresh self) ->
  filter_single_class self batch_item index = Raise InvalidArgumentError.
Proof.
  intros Hmax Hnone. unfold filter_single_class.
  fold (confident_rows self batch_item index).
  assert (E : confident_rows self batch_item index = []).
  { destruct (confident_rows self batch_item index) as [|r rows] eqn:E; auto.
    assert (Hr : In r (confident_rows self batch_item index))
      by (rewrite E; now left).
    apply confident_rows_In in Hr as [Hr Hc].
    apply single_class_rows_In in Hr as (box & Hbox & ->).
    apply Hnone in Hbox. unfold confidence in Hc. simpl in Hc. lra. }
  rewrite E. simpl. unfold pad_rows.
  replace (nms_max_output_size self - 1 <? 0)%Z with true
    by (symmetry; apply Z.ltb_lt; lia).
  reflexivity.
Qed.

Lemma filter_single_class_needs_capacity_witness :
  filter_single_class
    (mkLayer (1 / 100) (45 / 100) 200 0 "centroids" true
       (Some 300) (Some 300) 300 300) [] 1
  = Raise InvalidArgumentError.
Proof.
  apply (filter_single_class_needs_capacity
           (mkLayer (1 / 100) (45 / 100) 200 0 "centroids" true
              (Some 300) (Some 300) 300 300) [] 1).
  - simpl. lia.
  - intros box H. destruct H.
Defined.

Lemma top_k_stage_negative (self : DecodeDetections)
    (filtered_predictions : list (list R)) :
  (top_k self < 0)%Z ->
  top_k_stage self filtered_predictions = Raise InvalidArgumentError.
Proof.
  intros Hk. unfold top_k_stage.
  replace (Z.of_nat (length filtered_predictions) >=? top_k self)%Z with true
    by (symmetry; apply Z.geb_le; lia).
  unfold top_k_branch, nn_top_k.
  replace (top_k self <? 0)%Z with true by (symmetry; apply Z.ltb_lt; lia).
  reflexivity.
Qed.

(** X12. With a negative [top_k], which the constructor accepts, [call]
    raises on every batch that holds an image: the branch taken at line 251
    asks for the [top_k] best rows. *)
Theorem call_negative_top_k (self : DecodeDetections) (y_pred : Tensor3) :
  (top_k self < 0)%Z ->
  0 <= iou_threshold self <= 1 ->
  (0 < nms_max_output_size self)%Z ->
  (12 <= shape2 y_pred)%nat ->
  entries y_pred <> [] ->
  call self y_pred = Raise InvalidArgumentError.
Proof.
  intros Hk Hiou Hmax Hd Hne. unfold call.
  replace (shape2 y_pred <? 12) with false
    by (symmetry; apply Nat.ltb_ge; lia).
  replace (shape2 y_pred - 12 + 4 - 4)%nat with (shape2 y_pred - 12)%nat by lia.
  destruct (Nat.le_gt_cases 2 (shape2 y_pred - 12)) as [Hn|Hn].
  - rewrite class_indices_range by lia.
    destruct (entries y_pred) as [|image rest]; [contradiction|].
    simpl. unfold filter_predictions at 1.
    rewrite filtered_predictions_of_blocks by auto. simpl.
    now rewrite top_k_stage_negative.
  - destruct (shape2 y_pred - 12)%nat as [|[|n]] eqn:E; [reflexivity| |lia].
    destruct (entries y_pred) as [|image rest]; [contradiction|].
    reflexivity.
Qed.

Lemma call_negative_top_k_witness :
  call
    (mkLayer (1 / 100) (45 / 100) (-1) 400 "centroids" true
       (Some 300) (Some 300) 300 300) tensor_scenario1
  = Raise InvalidArgumentError.
Proof.
  apply (call_negative_top_k
           (mkLayer (1 / 100) (45 / 100) (-1) 400 "centroids" true
              (Some 300) (Some 300) 300 300) tensor_scenario1).
  - simpl. lia.
  - cbn -[Rdiv]. lra.
  - simpl. lia.
  - simpl. lia.
  - discriminate.
Defined.

(** ** The best candidate *)

(** X13. The first row of a frame is the best candidate of the image: when
    a candidate of a class in [1 .. n_classes - 1] passes the threshold, the
    first row is a candidate that passes the threshold, and no candidate
    that passes it has a higher confidence. *)
Theorem best_candidate_first (self : DecodeDetections) (n_classes : nat)
    (batch_item : list (list R)) (index : nat) (r : list R) :
  valid_config self ->
  (1 <= index < n_classes)%nat ->
  In r (confident_rows self batch_item index) ->
  exists frame top,
    filter_predictions self n_classes batch_item = Ok frame /\
    nth_error frame 0 = Some top /\
    (exists index', (1 <= index' < n_classes)%nat /\
                    In top (confident_rows self batch_item index')) /\
    forall index' r', (1 <= index' < n_classes)%nat ->
      In r' (confident_rows self batch_item index') ->
      confidence r' <= confidence top.
Proof.
  intros ((Ht & _) & Hiou & Hk & Hmax) Hc Hr.
  destruct (frame_best self n_classes batch_item Hk Hmax)
    as (top & rest & Hframe & Hbest).
  exists (frame_result self n_classes batch_item), top.
  split; [apply filter_predictions_frame; auto; lia|].
  split; [now rewrite Hframe|]. split; [|exact Hbest].
  assert (Hin : In top (frame_result self n_classes batch_item))
    by (rewrite Hframe; now left).
  apply frame_result_In in Hin as [->|(c' & Hc' & Hin)].
  - specialize (Hbest index r Hc Hr).
    apply confident_rows_In in Hr as [_ Hr].
    rewrite confidence_zero_row in Hbest. lra.
  - exists c'. split; [now apply class_range_In|].
    now apply class_detections_In.
Qed.

Lemma best_candidate_first_witness :
  exists frame top,
    filter_predictions layer300 2 item_scenario1 = Ok frame /\
    nth_error frame 0 = Some top /\
    (exists index', (1 <= index' < 2)%nat /\
                    In top (confident_rows layer300 item_scenario1 index')) /\
    forall index' r', (1 <= index' < 2)%nat ->
      In r' (confident_rows layer300 item_scenario1 index') ->
      confidence r' <= confidence top.
Proof.
  apply (best_candidate_first layer300 2 item_scenario1 1
           [INR 1; 9 / 10; 8; 8; 12; 12]).
  - unfold valid_config, layer300. cbn -[Rdiv]. repeat split; try lra; lia.
  - lia.
  - apply confident_rows_In. split.
    + left. reflexivity.
    + unfold confidence, layer300. cbn -[Rdiv]. lra.
Defined.

(** ** What the suppression discards *)

(** X14. The suppression discards nothing without a reason: a candidate of a
    class that passes the threshold is in the block of the class, or the
    block is full (it holds no zero row), or the block holds a row of at
    least its confidence whose IoU with it exceeds [iou_threshold]. *)
Theorem suppressed_candidate_overlaps (self : DecodeDetections)
    (batch_item : list (list R)) (index : nat) (r : list R) :
  valid_config self ->
  In r (confident_rows self batch_item index) ->
  exists block,
    filter_single_class self batch_item index = Ok block /\
    (In r block \/
     ~ In zero_row block \/
     exists d, In d block /\ confidence r <= confidence d /\
               IOU (nms_box r) (nms_box d) > iou_threshold self).
Proof.
  intros ((Ht & _) & Hiou & _ & Hmax) Hr.
  eexists. split; [now apply filter_single_class_block|].
  now apply class_block_complete.
Qed.

Lemma suppressed_candidate_overlaps_witness :
  exists block,
    filter_single_class layer300 item_scenario1 1 = Ok block /\
    (In [INR 1; 9 / 10; 8; 8; 12; 12] block \/
     ~ In zero_row block \/
     exists d, In d block /\
               confidence [INR 1; 9 / 10; 8; 8; 12; 12] <= confidence d /\
               IOU (nms_box [INR 1; 9 / 10; 8; 8; 12; 12]) (nms_box d)
               > iou_threshold layer300).
Proof.
  apply (suppressed_candidate_overlaps layer300 item_scenario1 1
           [INR 1; 9 / 10; 8; 8; 12; 12]).
  - unfold valid_config, layer300. cbn -[Rdiv]. repeat split; try lra; lia.
  - apply confident_rows_In. split.
    + left. reflexivity.
    + unfold confidence, layer300. cbn -[Rdiv]. lra.
Defined.

(** ** What the top-k stage keeps *)

Lemma filter_length_perm {A : Type} (f : A -> bool) (l l' : list A) :
  Permutation l l' -> length (filter f l) = length (filter f l').
Proof.
  induction 1 as [|x l l' _ IH|x y l|l l' l'' _ IH1 _ IH2]; simpl; auto.
  - destruct (f x); simpl; auto.
  - destruct (f x), (f y); reflexivity.
  - congruence.
Qed.

Lemma filter_all {A : Type} (f : A -> bool) (l : list A) :
  (forall x, In x l -> f x = true) -> filter f l = l.
Proof.
  induction l as [|a l IH]; simpl; intros H; auto.
  rewrite H by auto. f_equal. apply IH. auto.
Qed.

Lemma filter_none {A : Type} (f : A -> bool) (l : list A) :
  (forall x, In x l -> f x = false) -> filter f l = [].
Proof.
  induction l as [|a l IH]; simpl; intros H; auto.
  rewrite H by auto. apply IH. auto.
Qed.

Lemma filter_firstn_length {A : Type} (f : A -> bool) (n : nat) (l : list A) :
  (length (filter f (firstn n l)) <= length (filter f l))%nat.
Proof.
  rewrite <- (firstn_skipn n l) at 2. rewrite filter_app, length_app. lia.
Qed.

Lemma padded_filter_length (self : DecodeDetections) (f : list R -> bool)
    (fp : list (list R)) :
  f zero_row = false ->
  length (filter f (ranked self fp)) = length (filter f fp).
Proof.
  intros Hz. rewrite (filter_length_perm f _ _ (ranked_perm self fp)).
  unfold padded_predictions. rewrite filter_app, length_app.
  rewrite (filter_none f (repeat zero_row _)); [simpl; lia|].
  intros x Hx. apply repeat_spec in Hx. now subst.
Qed.

Lemma positive_confidence_zero_row : positive_confidence zero_row = false.
Proof.
  unfold positive_confidence. rewrite confidence_zero_row.
  apply Rgtb_false. lra.
Qed.

(** The top-k stage loses no row of positive confidence when at most
    [top_k] rows have one. *)
Lemma top_k_keeps_positive (self : DecodeDetections) (fp : list (list R))
    (r : list R) :
  (0 <= top_k self)%Z ->
  (length (filter positive_confidence fp) <= Z.to_nat (top_k self))%nat ->
  In r fp -> confidence r > 0 ->
  In r (firstn (Z.to_nat (top_k self)) (ranked self fp)).
Proof.
  intros Hk Hcount Hr Hpos.
  set (k := Z.to_nat (top_k self)) in *.
  assert (Hin : In r (ranked self fp)).
  { apply (Permutation_in _ (Permutation_sym (ranked_perm self fp))).
    unfold padded_predictions. apply in_or_app. now left. }
  rewrite <- (firstn_skipn k (ranked self fp)) in Hin.
  apply in_app_or in Hin as [Hin|Hin]; auto. exfalso.
  pose proof (ranked_sorted self fp) as Hsorted.
  rewrite <- (firstn_skipn k (ranked self fp)) in Hsorted.
  assert (Hframe : filter positive_confidence (firstn k (ranked self fp)) =
                   firstn k (ranked self fp)).
  { apply filter_all. intros a Ha.
    pose proof (FOP_app_cross conf_desc _ _ Hsorted a r Ha Hin) as Hle.
    unfold conf_desc in Hle. apply Rgtb_true. lra. }
  assert (Hrest : (1 <= length (filter positive_confidence
                                  (skipn k (ranked self fp))))%nat).
  { assert (H : In r (filter positive_confidence
                        (skipn k (ranked self fp))))
      by (apply filter_In; split; auto; now apply Rgtb_true).
    destruct (filter positive_confidence (skipn k (ranked self fp)));
      [contradiction | simpl; lia]. }
  pose proof (padded_filter_length self positive_confidence fp
                positive_confidence_zero_row) as Hlen.
  rewrite <- (firstn_skipn k (ranked self fp)) in Hlen.
  rewrite filter_app, length_app, Hframe in Hlen.
  rewrite firstn_length_le in Hlen.
  - lia.
  - rewrite (Permutation_length (ranked_perm self fp)).
    now apply padded_predictions_length.
Qed.

(** X15. With at least one class beside the background, the top-k stage
    truncates zero rows only when the detections fit: if at most [top_k]
    rows of the class blocks have a positive confidence, every row of the
    blocks other than the zero row is in the frame. *)
Theorem detections_kept_when_they_fit (self : DecodeDetections)
    (n_classes : nat) (batch_item : list (list R)) :
  valid_config self -> (2 <= n_classes)%nat ->
  exists fp frame,
    filtered_predictions_of self n_classes batch_item = Ok fp /\
    filter_predictions self n_classes batch_item = Ok frame /\
    ((length (filter positive_confidence fp) <= Z.to_nat (top_k self))%nat ->
     forall r, In r fp -> r <> zero_row -> In r frame).
Proof.
  intros ((Ht & _) & Hiou & Hk & Hmax) Hn.
  exists (all_blocks self n_classes batch_item),
         (frame_result self n_classes batch_item).
  split; [now apply filtered_predictions_of_blocks|].
  split; [apply filter_predictions_frame; auto; lia|].
  intros Hcount r Hr Hnz. apply top_k_keeps_positive; auto; [lia|].
  apply all_blocks_In in Hr as [->|(c & _ & Hr)]; [contradiction|].
  apply class_detections_class in Hr as [_ Hr]. lra.
Qed.

Lemma detections_kept_when_they_fit_witness :
  exists fp frame,
    filtered_predictions_of layer_small 2 item_pair = Ok fp /\
    filter_predictions layer_small 2 item_pair = Ok frame /\
    ((length (filter positive_confidence fp) <=
      Z.to_nat (top_k layer_small))%nat ->
     forall r, In r fp -> r <> zero_row -> In r frame).
Proof.
  apply (detections_kept_when_they_fit layer_small 2 item_pair).
  - unfold valid_config, layer_small. cbn -[Rdiv].
    repeat split; try lra; lia.
  - lia.
Defined.

(** ** Rows per class *)

Lemma of_class_true (index : nat) (r : list R) :
  of_class index r = true <-> class_id r = INR index.
Proof.
  unfold of_class. destruct (Req_dec_T (class_id r) (INR index));
    split; auto; discriminate.
Qed.

Lemma of_class_zero_row (index : nat) :
  (1 <= index)%nat -> of_class index zero_row = false.
Proof.
  intros Hi. destruct (of_class index zero_row) eqn:E; auto.
  apply of_class_true in E. rewrite class_id_zero_row in E.
  assert (0 < INR index) by (apply lt_0_INR; lia). lra.
Qed.

Lemma class_block_other (self : DecodeDetections)
    (batch_item : list (list R)) (index index' : nat) :
  (1 <= index)%nat -> index' <> index ->
  filter (of_class index) (class_block self batch_item index') = [].
Proof.
  intros Hi Hne. apply filter_none. intros r Hr.
  apply class_block_In in Hr as [->|Hr]; [now apply of_class_zero_row|].
  apply class_detections_class in Hr as [Hr _].
  destruct (of_class index r) eqn:E; auto.
  apply of_class_true in E. rewrite Hr in E. apply INR_eq in E. contradiction.
Qed.

Lemma blocks_class_count (self : DecodeDetections)
    (batch_item : list (list R)) (index : nat) (indices : list nat) :
  (1 <= index)%nat -> NoDup indices ->
  (length (filter (of_class index)
             (concat (map (class_block self batch_item) indices)))
   <= if in_dec Nat.eq_dec index indices
      then length (class_detections self batch_item index) else 0)%nat.
Proof.
  intros Hi. induction 1 as [|c cs Hc Hcs IH]; simpl; [lia|].
  rewrite filter_app, length_app.
  destruct (Nat.eq_dec c index) as [->|Hne].
  - destruct (in_dec Nat.eq_dec index cs) as [Hin|_]; [contradiction|].
    unfold class_block at 1. rewrite filter_app, length_app.
    rewrite (filter_none _ (repeat zero_row _)).
    + pose proof (filter_length_le (of_class index)
                    (class_detections self batch_item index)).
      simpl. lia.
    + intros x Hx. apply repeat_spec in Hx. subst.
      now apply of_class_zero_row.
  - rewrite class_block_other by auto. simpl.
    destruct (in_dec Nat.eq_dec index cs); exact IH.
Qed.

(** X16. With a valid configuration and at least one class beside the
    background, a frame holds at most [nms_max_output_size] rows of one
    class. *)
Theorem frame_rows_per_class (self : DecodeDetections) (n_classes : nat)
    (batch_item : list (list R)) (index : nat) :
  valid_config self -> (2 <= n_classes)%nat -> (1 <= index)%nat ->
  exists frame,
    filter_predictions self n_classes batch_item = Ok frame /\
    (length (filter (of_class index) frame) <=
     Z.to_nat (nms_max_output_size self))%nat.
Proof.
  intros (_ & Hiou & Hk & Hmax) Hn Hi.
  exists (frame_result self n_classes batch_item).
  split; [apply filter_predictions_frame; auto; lia|].
  unfold frame_result.
  eapply Nat.le_trans; [apply filter_firstn_length|].
  rewrite padded_filter_length by (now apply of_class_zero_row).
  eapply Nat.le_trans;
    [apply (blocks_class_count self batch_item index); auto; apply seq_NoDup|].
  pose proof (class_detections_length self batch_item index).
  destruct (in_dec Nat.eq_dec index (class_range n_classes)); lia.
Qed.

(** A layer that returns more rows per image than it keeps per class. *)
Lemma frame_rows_per_class_witness :
  exists frame,
    filter_predictions layer_small 2 item_pair = Ok frame /\
    (length (filter (of_class 1) frame) <=
     Z.to_nat (nms_max_output_size layer_small))%nat.
Proof.
  apply (frame_rows_per_class layer_small 2 item_pair 1).
  - unfold valid_config, layer_small. cbn -[Rdiv].
    repeat split; try lra; lia.
  - lia.
  - lia.
Defined.
